(** * thunder.rdds.fileio.imagesloader: decoding and keying of image records

    A shallow embedding of [ImagesLoader] (fromStack / toArray,
    fromTif / multitifReader, fromPng) and the properties of its
    frame-splitting and key-numbering logic.

    Python integers are [Z]; buffers are lists of bytes; an exception
    raised by the code is the [Raise] branch of the [result] monad. *)

From Stdlib Require Import String Ascii DecimalString Init.Byte.
From Stdlib Require Import ZArith List Lia Bool.
Import ListNotations.
Open Scope Z_scope.

(** ** Exceptions and the error monad *)

Inductive exception : Type :=
| ValueError (msg : string)
| ImportError (msg : string)
| IndexError (msg : string)
| TypeError (msg : string)
| ZeroDivisionError (msg : string)
| EOFError (msg : string)
| IOError (msg : string).

Inductive result (A : Type) : Type :=
| Ok (a : A)
| Raise (e : exception).
Arguments Ok {A} a.
Arguments Raise {A} e.

Definition bind {A B : Type} (r : result A) (k : A -> result B) : result B :=
  match r with
  | Ok a => k a
  | Raise e => Raise e
  end.

Declare Scope py_scope.
Delimit Scope py_scope with py.
Notation "x <- c1 ;; c2" := (bind c1 (fun x => c2))
  (at level 61, c1 at next level, right associativity) : py_scope.
Notation "' pat <- c1 ;; c2" := (bind c1 (fun x => match x with pat => c2 end))
  (at level 61, pat pattern, c1 at next level, right associativity) : py_scope.
Open Scope py_scope.

(** Runs [f] over a list left to right; the first exception aborts. *)
Fixpoint mapM {A B : Type} (f : A -> result B) (l : list A) : result (list B) :=
  match l with
  | [] => Ok []
  | x :: xs => y <- f x ;; ys <- mapM f xs ;; Ok (y :: ys)
  end.

(** ["%d" % n] *)
Definition fmt_d (n : Z) : string := NilZero.string_of_int (Z.to_int n).

(** ** Buffers, element types and arrays *)

Definition bytes : Type := list Byte.byte.

(** The fixed-width numeric element types a [dtype] argument can name. *)
Inductive dtype : Type :=
| int8 | uint8 | int16 | uint16 | int32 | uint32 | int64 | uint64
| float32 | float64.

Definition itemsize (t : dtype) : Z :=
  match t with
  | int8 | uint8 => 1
  | int16 | uint16 => 2
  | int32 | uint32 | float32 => 4
  | int64 | uint64 | float64 => 8
  end.

(** One array item: the [itemsize] bytes it was read from, or whatever the
    page codec produced for a pixel. *)
Definition elem : Type := bytes.

(** An n-dimensional array: its [shape] and its items listed with the first
    index varying fastest (the order ['F'] of [reshape]). The items of one
    index of the last axis (a plane) are therefore contiguous. *)
Record ndarray : Type := mkArray {
  shape : list Z;
  data : list elem
}.

Definition ndim (a : ndarray) : Z := Z.of_nat (length (shape a)).

(** [numpy.prod] of a tuple of positive ints ([1] for the empty tuple), taken
    exactly. numpy multiplies in 64-bit integers and [frombuffer] takes its
    count, and compares count times item size, as machine integers, so this
    is the code's count as long as the byte size [prod dims * itemsize] is
    below 2^63. From there on the code fails in other ways (an
    [OverflowError] for the count, or the [ValueError] of [reshape] after a
    wrapped count); no buffer is that long, and the statements below about
    a buffer that is too short carry the bound
    [prod dims * itemsize < 2^63]. *)
Definition prod (dims : list Z) : Z := fold_right Z.mul 1 dims.

(** [seq[-1]] *)
Definition last_item (l : list Z) : result Z :=
  match l with
  | [] => Raise (IndexError "tuple index out of range")
  | _ => Ok (last l 0)
  end.

(** Splits a buffer into [count] items of [sz] bytes. *)
Fixpoint items (count : nat) (sz : nat) (buf : bytes) : list elem :=
  match count with
  | O => []
  | S c => firstn sz buf :: items c sz (skipn sz buf)
  end.

(** [numpy.frombuffer(buf, dtype=t, count=count)]: a negative [count] reads
    the whole buffer, which must then hold a whole number of items; otherwise
    the buffer must hold at least [count] items and the first [count] are
    read. *)
Definition frombuffer (buf : bytes) (t : dtype) (count : Z) : result ndarray :=
  let s := Z.of_nat (length buf) in
  if count <? 0 then
    if negb (s mod itemsize t =? 0) then
      Raise (ValueError "buffer size must be a multiple of element size")
    else
      let n := s / itemsize t in
      Ok (mkArray [n] (items (Z.to_nat n) (Z.to_nat (itemsize t)) buf))
  else
    if s <? count * itemsize t then
      Raise (ValueError "buffer is smaller than requested size")
    else
      Ok (mkArray [count] (items (Z.to_nat count) (Z.to_nat (itemsize t)) buf)).

(** The part of [reshape] that resolves the requested shape against the
    number of items: one negative entry stands for the unknown dimension. *)
Definition fix_shape (size : Z) (dims : list Z) : result (list Z) :=
  let unknown := filter (fun d => d <? 0) dims in
  let s_known := prod (filter (fun d => negb (d <? 0)) dims) in
  match unknown with
  | [] =>
      if size =? s_known then Ok dims
      else Raise (ValueError "total size of new array must be unchanged")
  | [_] =>
      if (s_known =? 0) || negb (size mod s_known =? 0) then
        Raise (ValueError "total size of new array must be unchanged")
      else Ok (map (fun d => if d <? 0 then size / s_known else d) dims)
  | _ => Raise (ValueError "can only specify one unknown dimension")
  end.

(** [a.reshape(dims, order='F')]: the items keep their first-index-fastest
    order. *)
Definition reshape (a : ndarray) (dims : list Z) : result ndarray :=
  sh <- fix_shape (Z.of_nat (length (data a))) dims ;;
  Ok (mkArray sh (data a)).

(** Python's handling of one bound of [slice(start, stop)] on an axis of
    length [n]. *)
Definition slice_bound (i n : Z) : Z :=
  if i <? 0 then Z.max (i + n) 0 else Z.min i n.

(** [ary[[slice(None)] * (ary.ndim - 1) + [slice(start, stop)]]]: the planes
    [start .. stop-1] of the last axis. *)
Definition slice_last (a : ndarray) (start stop : Z) : ndarray :=
  let n := last (shape a) 0 in
  let lo := slice_bound start n in
  let hi := slice_bound stop n in
  let len := Z.max 0 (hi - lo) in
  let ps := prod (removelast (shape a)) in
  mkArray (removelast (shape a) ++ [len])
          (firstn (Z.to_nat (len * ps)) (skipn (Z.to_nat (lo * ps)) (data a))).

(** ** The record source and the resulting collection *)

(** What collecting a lazily evaluated RDD yields. When every record is
    processed without an exception this is [Ok] of the elements in record
    order, as Spark delivers them. When some record raises, the job fails and
    delivers no element; the value is then a [Raise], and only the fact that
    it is one stands for the code: Spark runs the tasks in parallel and
    wraps the exception it reports, so the exception carried here (that of
    the first failing record in record order) is the choice of this model,
    and the statements about a failing collection say only that it is not
    [Ok]. *)
Definition RDD (A : Type) : Type := result (list A).

Definition flatMap {A B : Type} (f : A -> result (list B)) (r : list A) : RDD B :=
  ls <- mapM f r ;; Ok (concat ls).

Definition mapValues {K A B : Type} (f : A -> result B) (r : list (K * A)) : RDD (K * B) :=
  mapM (fun kv => v <- f (snd kv) ;; Ok (fst kv, v)) r.

Fixpoint enumerate_from {A : Type} (i : Z) (l : list A) : list (Z * A) :=
  match l with
  | [] => []
  | x :: xs => (i, x) :: enumerate_from (i + 1) xs
  end.

Record ParallelReader : Type := mkReader {
  readerRdd : list (Z * bytes);
  lastNRecs : Z
}.

(** Modelled from the spec: [getParallelReaderForPath(dataPath)(sc)] and its
    [read] method live in [thunder.rdds.fileio.readers], outside this
    module. The record source delivers the selected files' contents, each
    tagged with its dense 0-based position in sorted order, and exposes the
    number of records read as [lastNRecs]. [files] are the contents of the
    files that [dataPath], [ext], [startIdx], [stopIdx] and [recursive]
    select, in sorted order. *)
Definition reader_read (files : list bytes) : ParallelReader :=
  mkReader (enumerate_from 0 files) (Z.of_nat (length files)).

Record Images : Type := mkImages {
  rdd : RDD (Z * ndarray);
  nimages : option Z;
  img_dims : option (list Z);
  img_dtype : option dtype
}.

(** ** fromStack: flat binary stacks *)

(** The local variables of [toArray]'s plane walk, and the frames yielded so
    far. *)
Record walk_state : Type := mkWalk {
  timepoint : Z;
  lastPlane : Z;
  curPlane : Z;
  yielded : list (Z * ndarray)
}.

(** The number of time points per file that [toArray] computes:
    [dims[-1] / nplanes], plus one when [dims[-1] % nplanes] is not zero. *)
Definition stack_npoints (total nplanes : Z) : Z :=
  let npoints := total / nplanes in
  if negb (total mod nplanes =? 0) then npoints + 1 else npoints.

Section StackDecoder.
Variable dims : list Z.
Variable dt : dtype.

(** One pass through the body of [while curPlane < ary.shape[-1]]. *)
Definition walk_body (idx npoints nplanes : Z) (ary : ndarray) (st : walk_state)
  : walk_state :=
  if curPlane st mod nplanes =? 0 then
    mkWalk (timepoint st + 1) (curPlane st) (curPlane st + 1)
           (yielded st ++
            [(idx * npoints + timepoint st,
              slice_last ary (lastPlane st) (curPlane st))])
  else
    mkWalk (timepoint st) (lastPlane st) (curPlane st + 1) (yielded st).

(** The while loop, unrolled at most [fuel] times. *)
Fixpoint walk (fuel : nat) (idx npoints nplanes : Z) (ary : ndarray)
  (st : walk_state) : walk_state :=
  match fuel with
  | O => st
  | S fuel' =>
      if curPlane st <? last (shape ary) 0 then
        walk fuel' idx npoints nplanes ary (walk_body idx npoints nplanes ary st)
      else st
  end.

(** The generator [toArray], run to exhaustion. [curPlane] starts at 1 and
    grows by one per pass, so [ary.shape[-1]] passes always reach the exit
    test (lemma [walk_exits]). *)
Definition toArray (nplanes : option Z) (idxAndBuf : Z * bytes)
  : result (list (Z * ndarray)) :=
  let '(idx, buf) := idxAndBuf in
  flat <- frombuffer buf dt (prod dims) ;;
  ary <- reshape flat dims ;;
  match nplanes with
  | None => Ok [(idx, ary)]
  | Some nplanes =>
      total <- last_item dims ;;
      if nplanes =? 0 then
        Raise (ZeroDivisionError "integer division or modulo by zero")
      else
        let npoints := stack_npoints total nplanes in
        let n := last (shape ary) 0 in
        let st := walk (Z.to_nat n) idx npoints nplanes ary (mkWalk 0 0 1 []) in
        Ok (yielded st ++
            [(idx * npoints + timepoint st, slice_last ary (lastPlane st) n)])
  end.
End StackDecoder.

(** [if nplanes is not None and nplanes <= 0: raise ValueError(...)], the
    check that fromStack and fromTif both make. *)
Definition check_nplanes (nplanes : option Z) : result unit :=
  match nplanes with
  | Some n =>
      if n <=? 0 then
        Raise (ValueError ("nplanes must be positive if passed, got " ++ fmt_d n))
      else Ok tt
  | None => Ok tt
  end.

(** [fromStack(dataPath, dims, dtype, ext, startIdx, stopIdx, recursive,
    nplanes)]; [dims = None] stands for a missing value. The two argument
    checks come first; the records are only decoded when the returned
    collection is evaluated. *)
Definition fromStack (files : list bytes) (dims : option (list Z)) (dt : dtype)
  (nplanes : option Z) : result Images :=
  match dims with
  | None | Some [] =>
      Raise (ValueError
        "Image dimensions must be specified if loading from binary stack data")
  | Some dims =>
      _ <- check_nplanes nplanes ;;
      let reader := reader_read files in
      let nimages :=
        match nplanes with None => Some (lastNRecs reader) | Some _ => None end in
      let newDims :=
        match nplanes with
        | Some n => if n =? 0 then dims else removelast dims ++ [n]
        | None => dims
        end in
      Ok (mkImages (flatMap (toArray dims dt nplanes) (readerRdd reader))
                   nimages (Some newDims) (Some dt))
  end.

(** ** fromTif: multipage tif files *)

(** [numpy.atleast_3d] *)
Definition atleast_3d (a : ndarray) : ndarray :=
  match shape a with
  | [] => mkArray [1; 1; 1] (data a)
  | [n] => mkArray [1; n; 1] (data a)
  | [m; n] => mkArray [m; n; 1] (data a)
  | _ => a
  end.

(** Two shapes agree everywhere but on axis 2. *)
Definition same_but_axis2 (s1 s2 : list Z) : bool :=
  (length s1 =? length s2)%nat
  && (if list_eq_dec Z.eq_dec (firstn 2 s1) (firstn 2 s2) then true else false)
  && (if list_eq_dec Z.eq_dec (skipn 3 s1) (skipn 3 s2) then true else false).

(** The items of [b] whose indices after axis 2 are number [o]. *)
Definition block (b : ndarray) (o : nat) : list elem :=
  let bs := Z.to_nat (prod (firstn 3 (shape b))) in
  firstn bs (skipn (o * bs) (data b)).

(** [numpy.concatenate(arys, axis=2)] on arrays of three or more axes. *)
Definition concatenate2 (arys : list ndarray) : result ndarray :=
  match arys with
  | [] => Raise (ValueError "need at least one array to concatenate")
  | a :: rest =>
      if forallb (fun b => same_but_axis2 (shape a) (shape b)) rest then
        let outer := Z.to_nat (prod (skipn 3 (shape a))) in
        Ok (mkArray
              (firstn 2 (shape a)
               ++ [fold_right Z.add 0 (map (fun b => nth 2 (shape b) 0) arys)]
               ++ skipn 3 (shape a))
              (flat_map (fun o => flat_map (fun b => block b o) arys)
                        (seq 0 outer)))
      else
        Raise (ValueError
          "all the input array dimensions except for the concatenation axis must match exactly")
  end.

(** [numpy.dstack] *)
Definition dstack (arys : list ndarray) : result ndarray :=
  concatenate2 (map atleast_3d arys).

(** [dstack(imgArys) if len(imgArys) > 1 else imgArys[0]] *)
Definition retAry (imgArys : list ndarray) : result ndarray :=
  if (1 <? length imgArys)%nat then dstack imgArys
  else match imgArys with
       | a :: _ => Ok a
       | [] => Raise (IndexError "list index out of range")
       end.

(** The local variables of [multitifReader]'s page walk. [npagesLeft] is
    [None] when it holds Python's [None]. *)
Record tif_state : Type := mkTif {
  pageIdx : nat;
  imgArys : list ndarray;
  npagesLeft : option Z;
  values : list ndarray
}.

Inductive outcome : Type :=
| Continue (st : tif_state)
| Break (st : tif_state)
| Fail (e : exception).

(** A statement inside [try: ... except EOFError: break]. *)
Definition try_ {A : Type} (r : result A) (st : tif_state) (k : A -> outcome)
  : outcome :=
  match r with
  | Ok a => k a
  | Raise (EOFError _) => Break st
  | Raise e => Fail e
  end.

(** [-1 if nplanes is None else nplanes] *)
Definition start_count (nplanes : option Z) : Z :=
  match nplanes with None => -1 | Some n => n end.

Section MultipageDecoder.
(** A PIL image positioned on one page of a container. *)
Variable pilimg : Type.

(** [Image.open(BytesIO(buf))]: the pages of the container, in order.
    [seek(i)] raises [EOFError] exactly when [i] is past the last page. *)
Variable Image_open : bytes -> result (list pilimg).

(** The injected conversion of the current page to an array. *)
Variable conversionFcn : pilimg -> result ndarray.

Variable nplanes : option Z.

Definition seek (multipage : list pilimg) (i : nat) : result pilimg :=
  match nth_error multipage i with
  | Some pg => Ok pg
  | None => Raise (EOFError "attempt to seek outside sequence")
  end.

(** One pass through the body of [while True]. *)
Definition page_step (multipage : list pilimg) (st : tif_state) : outcome :=
  try_ (seek multipage (pageIdx st)) st (fun pg =>
  try_ (conversionFcn pg) st (fun a =>
    let arys := imgArys st ++ [a] in
    let idx' := S (pageIdx st) in
    match npagesLeft st with
    | None =>
        Fail (TypeError "unsupported operand type(s) for -=: 'NoneType' and 'int'")
    | Some k =>
        let k := k - 1 in
        let st1 := mkTif idx' arys (Some k) (values st) in
        if k =? 0 then
          try_ (retAry arys) st1 (fun r =>
            Continue (mkTif idx' [] nplanes (values st ++ [r])))
        else Continue st1
    end)).

(** The loop, unrolled at most [fuel] times; every pass that does not leave
    the loop moves [pageIdx] one page on, so one pass more than there are
    pages always reaches the [break] (lemma [page_walk_breaks]). *)
Fixpoint page_walk (fuel : nat) (multipage : list pilimg) (st : tif_state)
  : result tif_state :=
  match fuel with
  | O => Ok st
  | S fuel' =>
      match page_step multipage st with
      | Continue st' => page_walk fuel' multipage st'
      | Break st' => Ok st'
      | Fail e => Raise e
      end
  end.

(** [idx*nvals + timepoint for timepoint in xrange(nvals)] *)
Definition tif_keys (idx nvals : Z) : list Z :=
  map (fun timepoint => idx * nvals + Z.of_nat timepoint)
      (seq 0 (Z.to_nat nvals)).

Definition multitifReader (idxAndBuf : Z * bytes) : result (list (Z * ndarray)) :=
  let '(idx, buf) := idxAndBuf in
  multipage <- Image_open buf ;;
  let init := mkTif 0 [] (Some (start_count nplanes)) [] in
  st <- page_walk (S (length multipage)) multipage init ;;
  vals <- match imgArys st with
          | [] => Ok (values st)
          | arys => r <- retAry arys ;; Ok (values st ++ [r])
          end ;;
  let nvals := Z.of_nat (length vals) in
  Ok (combine (tif_keys idx nvals) vals).
End MultipageDecoder.

(** What [from PIL import Image] provides. *)
Record PILImage (pilimg : Type) : Type := mkPIL {
  PILLOW_VERSION : bool;
  PIL_open : bytes -> result (list pilimg)
}.
Arguments PILLOW_VERSION {pilimg} _.
Arguments PIL_open {pilimg} _.

Section Loaders.
Variable pilimg : Type.
(** numpy's [array] and [thunder.utils.common.pil_to_array] on a page. *)
Variable array : pilimg -> result ndarray.
Variable pil_to_array : pilimg -> result ndarray.
(** matplotlib's [imread(fbuf, format='png')]. *)
Variable imread : bytes -> result ndarray.

(** [fromTif(dataPath, ext, startIdx, stopIdx, recursive, nplanes)];
    [Image] is [None] when the import of PIL fails. *)
Definition fromTif (Image : option (PILImage pilimg)) (files : list bytes)
  (nplanes : option Z) : result Images :=
  match Image with
  | None =>
      Raise (ImportError
        "fromMultipageTif requires a successful 'from PIL import Image'; the PIL/pillow library appears to be missing or broken.")
  | Some Image =>
      let isPillow := PILLOW_VERSION Image in
      let conversionFcn := if isPillow then array else pil_to_array in
      _ <- check_nplanes nplanes ;;
      let reader := reader_read files in
      let nimages :=
        match nplanes with None => Some (lastNRecs reader) | Some _ => None end in
      Ok (mkImages
            (flatMap (multitifReader pilimg (PIL_open Image) conversionFcn nplanes)
                     (readerRdd reader))
            nimages None None)
  end.

(** [fromPng(dataPath, ext, startIdx, stopIdx, recursive)] *)
Definition readPngFromBuf (buf : bytes) : result ndarray := imread buf.

Definition fromPng (files : list bytes) : Images :=
  let reader := reader_read files in
  mkImages (mapValues readPngFromBuf (readerRdd reader))
           (Some (lastNRecs reader)) None None.
End Loaders.

(** ** fromArrays: arrays already in memory *)

(** A numpy array as [fromArrays] sees it: the array and its element type. *)
Record typed_array : Type := mkTyped {
  ta_array : ndarray;
  ta_dtype : dtype
}.

(** [str(t)] for an element type. *)
Definition dtype_name (t : dtype) : string :=
  match t with
  | int8 => "int8" | uint8 => "uint8" | int16 => "int16" | uint16 => "uint16"
  | int32 => "int32" | uint32 => "uint32" | int64 => "int64" | uint64 => "uint64"
  | float32 => "float32" | float64 => "float64"
  end.

Definition dtype_eqb (t1 t2 : dtype) : bool :=
  match t1, t2 with
  | int8, int8 | uint8, uint8 | int16, int16 | uint16, uint16
  | int32, int32 | uint32, uint32 | int64, int64 | uint64, uint64
  | float32, float32 | float64, float64 => true
  | _, _ => false
  end.

Definition shape_eqb (s1 s2 : list Z) : bool :=
  if list_eq_dec Z.eq_dec s1 s2 then true else false.

(** [str(t)] for a tuple of ints. *)
Definition str_tuple (t : list Z) : string :=
  match t with
  | [] => "()"
  | [x] => ("(" ++ fmt_d x ++ ",)")%string
  | x :: xs =>
      ("(" ++ fmt_d x
       ++ String.concat "" (map (fun y => (", " ++ fmt_d y)%string) xs) ++ ")")%string
  end.

(** [str(dtype)] where [dtype] may still be [None]. *)
Definition str_dtype (t : option dtype) : string :=
  match t with
  | None => "None"
  | Some t => dtype_name t
  end.

(** The argument of [fromArrays]: one array, or a sequence of arrays. *)
Inductive arrays_arg : Type :=
| OneArray (a : typed_array)
| ArraySeq (l : list typed_array).

(** The [for ary in arrays] loop of [fromArrays]; [shape] and [dtype] are its
    two variables, [None] until the first array is seen. *)
Fixpoint check_arrays (shape0 : option (list Z)) (dtype0 : option dtype)
  (arrays : list typed_array) : result (option (list Z) * option dtype) :=
  match arrays with
  | [] => Ok (shape0, dtype0)
  | ary :: rest =>
      let '(shape1, dtype1) :=
        match shape0 with
        | None => (shape (ta_array ary), Some (ta_dtype ary))
        | Some s => (s, dtype0)
        end in
      if negb (shape_eqb (shape (ta_array ary)) shape1) then
        Raise (ValueError
          ("Arrays must all be of same shape; got both " ++ str_tuple shape1
           ++ " and " ++ str_tuple (shape (ta_array ary))))
      else if negb (match dtype1 with
                    | Some t => dtype_eqb (ta_dtype ary) t
                    | None => false
                    end) then
        Raise (ValueError
          ("Arrays must all be of same data type; got both " ++ str_dtype dtype1
           ++ " and " ++ dtype_name (ta_dtype ary)))
      else check_arrays (Some shape1) dtype1 rest
  end.

(** What [fromArrays] hands to the collection. *)
Record ArrayImages : Type := mkArrayImages {
  arr_rdd : RDD (Z * typed_array);
  arr_dims : option (list Z);
  arr_dtype : string;
  arr_nimages : Z
}.

Section FromArrays.
(** [self.sc.parallelize(c, numSlices)] of the Spark context passed in. *)
Variable parallelize : list (Z * typed_array) -> Z -> RDD (Z * typed_array).

Definition fromArrays (arrays : arrays_arg) : result ArrayImages :=
  let arrays :=
    match arrays with
    | OneArray a => [a]
    | ArraySeq l => l
    end in
  '(shape0, dtype0) <- check_arrays None None arrays ;;
  Ok (mkArrayImages
        (parallelize (enumerate_from 0 arrays) (Z.of_nat (length arrays)))
        shape0 (str_dtype dtype0) (Z.of_nat (length arrays))).
End FromArrays.

(** ** A small page codec for concrete runs

    Every byte of the buffer is one page of shape (1, 1) holding that byte. *)
Definition toy_open (buf : bytes) : result (list Byte.byte) := Ok buf.
Definition toy_page (b : Byte.byte) : result ndarray := Ok (mkArray [1; 1] [[b]]).
Definition toy_PIL : PILImage Byte.byte := mkPIL Byte.byte true toy_open.

(** A page codec that fails on marked bytes: byte 255 stands for a page
    whose conversion raises [EOFError], byte 254 for one that raises
    [IOError]; byte 1 is a page of shape (1, 2), any other a page of shape
    (1, 1). *)
Definition toy_page_strict (b : Byte.byte) : result ndarray :=
  if Byte.eqb b Byte.xff then Raise (EOFError "unexpected end of data")
  else if Byte.eqb b Byte.xfe then Raise (IOError "cannot decode page")
  else if Byte.eqb b Byte.x01 then Ok (mkArray [1; 2] [[b]; [b]])
  else Ok (mkArray [1; 1] [[b]]).

(** A page codec of colour pages: every byte is one page of shape (1, 1, 3)
    holding that byte three times. *)
Definition toy_page_rgb (b : Byte.byte) : result ndarray :=
  Ok (mkArray [1; 1; 3] [[b]; [b]; [b]]).

(** A png stand-in: the buffer is one row of one-byte pixels. *)
Definition toy_imread (buf : bytes) : result ndarray :=
  Ok (mkArray [1; Z.of_nat (length buf)] (map (fun b => [b]) buf)).

Definition zeros (n : nat) : bytes := repeat Byte.x00 n.

(** ** Closed forms used in the statements *)

(** The array [toArray] builds from a buffer that is long enough. *)
Definition decoded (dims : list Z) (dt : dtype) (buf : bytes) : ndarray :=
  mkArray dims (items (Z.to_nat (prod dims)) (Z.to_nat (itemsize dt)) buf).

(** Time point [t] of record [idx]: its key and the planes
    [t*nplanes .. (t+1)*nplanes - 1] (clipped to the array). *)
Definition group_frame (idx npoints nplanes : Z) (ary : ndarray) (t : nat)
  : Z * ndarray :=
  (idx * npoints + Z.of_nat t,
   slice_last ary (Z.of_nat t * nplanes) ((Z.of_nat t + 1) * nplanes)).

(** Number of planes of a frame: the length of its last axis. *)
Definition nplanes_of (a : ndarray) : Z := last (shape a) 0.

(** An array is well formed when its shape is non-negative and accounts for
    all of its items. *)
Definition well_formed (a : ndarray) : Prop :=
  Forall (fun d => 0 <= d) (shape a) /\
  Z.of_nat (length (data a)) = prod (shape a).

(** The invariant of [toArray]'s loop: with [curPlane = c], the groups closed
    so far are the first [(c-1)/n] time points. *)
Definition walk_inv (idx npoints n : Z) (ary : ndarray) (st : walk_state) : Prop :=
  exists k : nat,
    Z.of_nat k = (curPlane st - 1) / n /\
    timepoint st = Z.of_nat k /\
    lastPlane st = Z.of_nat k * n /\
    yielded st = map (group_frame idx npoints n ary) (seq 0 k).

(** A page as the codec delivers it: two axes (h, w), and as many items as
    its shape says. *)
Definition page_ok (h w : Z) (a : ndarray) : Prop :=
  shape a = [h; w] /\ Z.of_nat (length (data a)) = h * w.

(** Such a page seen with three axes. *)
Definition as3d (h w : Z) (a : ndarray) : ndarray := mkArray [h; w; 1] (data a).

(** How the page walk groups the pages still to come: [cur] is the pending
    group, [left] the count-down to its closing, [reset] the value the
    count-down restarts from. The result is the groups closed during the walk
    and the group left pending at its end. *)
Fixpoint page_groups {A : Type} (reset : Z) (cur : list A) (left : Z)
  (rest : list A) : list (list A) * list A :=
  match rest with
  | [] => ([], cur)
  | x :: rest' =>
      if left - 1 =? 0 then
        let '(closed, pending) := page_groups reset [] reset rest' in
        ((cur ++ [x]) :: closed, pending)
      else page_groups reset (cur ++ [x]) (left - 1) rest'
  end.

(** The groups that become frames: the closed ones, then the pending one
    when it is not empty. *)
Definition frame_groups {A : Type} (nplanes : option Z) (pages : list A)
  : list (list A) :=
  let start := start_count nplanes in
  let '(closed, pending) := page_groups start [] start pages in
  closed ++ match pending with [] => [] | _ => [pending] end.

(** The frame made from a group of pages of shape (h, w): a single page as
    it is, several pages stacked along a new last axis. *)
Definition frame_of_group (h w : Z) (g : list ndarray) : ndarray :=
  match g with
  | [a] => a
  | _ => mkArray [h; w; Z.of_nat (length g)] (concat (map data g))
  end.

(** The pages of one file that the page codec reads without trouble. *)
Definition reads_pages (pilimg : Type) (Image_open : bytes -> result (list pilimg))
  (conversionFcn : pilimg -> result ndarray) (buf : bytes) (pages : list ndarray)
  : Prop :=
  exists (imgs : list pilimg) (h w : Z),
    Image_open buf = Ok imgs /\
    Forall2 (fun pg a => conversionFcn pg = Ok a) imgs pages /\
    Forall (page_ok h w) pages.

(** An array fits the first one when it has its shape and element type. *)
Definition fits (a b : typed_array) : Prop :=
  shape (ta_array b) = shape (ta_array a) /\ ta_dtype b = ta_dtype a.

(** A well-formed array of at most three axes, the pages [dstack] joins
    along the last of three axes. *)
Definition small_page (a : ndarray) : Prop :=
  well_formed a /\ (length (shape a) <= 3)%nat.

(** The pages a walk reads from a container: the pages, from the first one
    on, up to the end of the container or up to the first page whose
    conversion raises [EOFError], every page before it converting. *)
Definition pages_read (pilimg : Type) (conversionFcn : pilimg -> result ndarray)
  (imgs : list pilimg) (pages : list ndarray) : Prop :=
  exists pre post : list pilimg,
    imgs = pre ++ post /\
    Forall2 (fun pg a => conversionFcn pg = Ok a) pre pages /\
    (post = [] \/
     exists (pg : pilimg) (post' : list pilimg) (m : string),
       post = pg :: post' /\ conversionFcn pg = Raise (EOFError m)).

(** * Properties *)

(** ** Arithmetic of the plane walk *)

Lemma div_pred_multiple (c n : Z) :
  0 < n -> c mod n = 0 -> c / n = (c - 1) / n + 1 /\ c = ((c - 1) / n + 1) * n.
Proof.
  intros Hn Hm.
  pose proof (Z.div_mod c n ltac:(lia)) as Hc. rewrite Hm in Hc.
  assert (Hq : (c - 1) / n = c / n - 1).
  { symmetry. apply Z.div_unique with (r := n - 1); lia. }
  lia.
Qed.

Lemma div_pred_other (c n : Z) :
  0 < n -> c mod n <> 0 -> c / n = (c - 1) / n.
Proof.
  intros Hn Hm.
  pose proof (Z.div_mod c n ltac:(lia)) as Hc.
  pose proof (Z.mod_pos_bound c n Hn) as Hb.
  apply Z.div_unique with (r := c mod n - 1); lia.
Qed.

Lemma stack_npoints_ceil (total n : Z) :
  0 < n -> stack_npoints total n = (total - 1) / n + 1.
Proof.
  intros Hn. unfold stack_npoints.
  destruct (total mod n =? 0) eqn:E; simpl.
  - apply Z.eqb_eq in E. apply (div_pred_multiple total n Hn E).
  - apply Z.eqb_neq in E. rewrite (div_pred_other total n Hn E). reflexivity.
Qed.

Lemma stack_npoints_pos (total n : Z) :
  0 < n -> 0 < total -> 0 < stack_npoints total n.
Proof.
  intros Hn Ht. rewrite stack_npoints_ceil by assumption.
  assert (0 <= (total - 1) / n) by (apply Z.div_pos; lia). lia.
Qed.

(** ** Decoding the buffer *)

Lemma length_items (c sz : nat) (buf : bytes) : length (items c sz buf) = c.
Proof.
  revert buf. induction c as [|c IH]; intros buf; simpl; [reflexivity|].
  now rewrite IH.
Qed.

(** Bytes beyond the items read do not matter. *)
Lemma items_firstn (c sz : nat) (buf : bytes) :
  items c sz (firstn (c * sz) buf) = items c sz buf.
Proof.
  revert buf. induction c as [|c IH]; intros buf; simpl; [reflexivity|].
  rewrite firstn_firstn, Nat.min_l by lia.
  rewrite skipn_firstn_comm.
  replace (sz + c * sz - sz)%nat with (c * sz)%nat by lia.
  now rewrite IH.
Qed.

Lemma prod_pos (dims : list Z) : Forall (fun d => 0 < d) dims -> 0 < prod dims.
Proof.
  induction 1 as [|d l Hd _ IH]; simpl; lia.
Qed.

Lemma filter_neg_pos (dims : list Z) :
  Forall (fun d => 0 < d) dims ->
  filter (fun d => d <? 0) dims = [] /\
  filter (fun d => negb (d <? 0)) dims = dims.
Proof.
  induction 1 as [|d l Hd _ [IH1 IH2]]; simpl; [split; reflexivity|].
  destruct (d <? 0) eqn:E; [apply Z.ltb_lt in E; lia|]. simpl.
  rewrite IH1, IH2. split; reflexivity.
Qed.

Lemma fix_shape_pos (size : Z) (dims : list Z) :
  Forall (fun d => 0 < d) dims -> size = prod dims -> fix_shape size dims = Ok dims.
Proof.
  intros Hpos ->. unfold fix_shape.
  destruct (filter_neg_pos dims Hpos) as [-> ->].
  now rewrite Z.eqb_refl.
Qed.

(** The two numpy calls of [toArray] succeed when the buffer holds at least
    [prod dims] items, and fail with a [ValueError] when it holds fewer. *)
Lemma decode_ok (dims : list Z) (dt : dtype) (buf : bytes) :
  Forall (fun d => 0 < d) dims ->
  prod dims * itemsize dt <= Z.of_nat (length buf) ->
  (flat <- frombuffer buf dt (prod dims) ;; reshape flat dims)
  = Ok (decoded dims dt buf).
Proof.
  intros Hpos Hlen. unfold frombuffer.
  pose proof (prod_pos dims Hpos) as Hp.
  destruct (prod dims <? 0) eqn:E1; [apply Z.ltb_lt in E1; lia|].
  destruct (Z.of_nat (length buf) <? prod dims * itemsize dt) eqn:E2;
    [apply Z.ltb_lt in E2; lia|].
  simpl. unfold reshape. simpl. rewrite length_items.
  rewrite fix_shape_pos; [reflexivity|assumption|lia].
Qed.

Lemma decode_short (dims : list Z) (dt : dtype) (buf : bytes) :
  Forall (fun d => 0 < d) dims ->
  Z.of_nat (length buf) < prod dims * itemsize dt ->
  (flat <- frombuffer buf dt (prod dims) ;; reshape flat dims)
  = Raise (ValueError "buffer is smaller than requested size").
Proof.
  intros Hpos Hlen. unfold frombuffer.
  pose proof (prod_pos dims Hpos) as Hp.
  destruct (prod dims <? 0) eqn:E1; [apply Z.ltb_lt in E1; lia|].
  destruct (Z.of_nat (length buf) <? prod dims * itemsize dt) eqn:E2;
    [reflexivity|apply Z.ltb_ge in E2; lia].
Qed.

(** ** The plane walk of toArray *)

Section Walk.
Variables (idx npoints n : Z) (ary : ndarray).
Hypothesis n_pos : 0 < n.

Let N := last (shape ary) 0.

Lemma walk_body_inv (st : walk_state) :
  1 <= curPlane st -> walk_inv idx npoints n ary st ->
  walk_inv idx npoints n ary (walk_body idx npoints n ary st) /\
  curPlane (walk_body idx npoints n ary st) = curPlane st + 1.
Proof.
  intros Hc (k & Hk & Ht & Hl & Hy). unfold walk_body.
  destruct (curPlane st mod n =? 0) eqn:E.
  - apply Z.eqb_eq in E.
    destruct (div_pred_multiple _ _ n_pos E) as [Hq Hmul].
    split; [|reflexivity]. exists (S k).
    cbn [curPlane timepoint lastPlane yielded].
    replace (curPlane st + 1 - 1) with (curPlane st) by lia.
    repeat split; try lia.
    rewrite seq_S, map_app, Hy, Ht, Hl. f_equal. simpl. unfold group_frame.
    do 3 f_equal. lia.
  - apply Z.eqb_neq in E.
    pose proof (div_pred_other _ _ n_pos E) as Hq.
    split; [|reflexivity]. exists k.
    cbn [curPlane timepoint lastPlane yielded].
    replace (curPlane st + 1 - 1) with (curPlane st) by lia.
    repeat split; try assumption. lia.
Qed.

(** Enough fuel: the walk stops because its test [curPlane < N] fails, with
    the invariant established for [curPlane = max N c]. *)
Lemma walk_exits (fuel : nat) (st : walk_state) :
  1 <= curPlane st -> walk_inv idx npoints n ary st ->
  N - curPlane st <= Z.of_nat fuel ->
  let st' := walk fuel idx npoints n ary st in
  walk_inv idx npoints n ary st' /\ curPlane st' = Z.max N (curPlane st).
Proof.
  revert st. induction fuel as [|fuel IH]; intros st Hc Hinv Hfuel; simpl.
  - split; [assumption|lia].
  - fold N. destruct (curPlane st <? N) eqn:E.
    + apply Z.ltb_lt in E.
      destruct (walk_body_inv st Hc Hinv) as [Hinv' Hc'].
      destruct (IH (walk_body idx npoints n ary st)) as [H1 H2];
        [lia|assumption|lia|].
      split; [exact H1|]. rewrite H2, Hc'. lia.
    + apply Z.ltb_ge in E. split; [assumption|lia].
Qed.

Lemma slice_last_clip (a b : Z) :
  0 <= N -> N <= b -> slice_last ary a b = slice_last ary a N.
Proof.
  intros HN Hb. unfold slice_last. fold N.
  assert (slice_bound b N = slice_bound N N) as ->; [|reflexivity].
  unfold slice_bound.
  destruct (b <? 0) eqn:E1; [apply Z.ltb_lt in E1; lia|].
  destruct (N <? 0) eqn:E2; [apply Z.ltb_lt in E2; lia|]. lia.
Qed.

(** The frames of one record: the yields of the walk followed by the
    trailing yield are the time points [0 .. (N-1)/n]. *)
Lemma walk_result :
  1 <= N ->
  let st := walk (Z.to_nat N) idx npoints n ary (mkWalk 0 0 1 []) in
  yielded st ++ [(idx * npoints + timepoint st, slice_last ary (lastPlane st) N)]
  = map (group_frame idx npoints n ary) (seq 0 (Z.to_nat ((N - 1) / n + 1))).
Proof.
  intros HN st.
  destruct (walk_exits (Z.to_nat N) (mkWalk 0 0 1 [])) as [(k & Hk & Ht & Hl & Hy) Hc].
  - simpl. lia.
  - exists O. simpl. repeat split; reflexivity.
  - simpl. lia.
  - fold st in Hk, Ht, Hl, Hy, Hc. simpl in Hc.
    rewrite Z.max_l in Hc by lia. rewrite Hc in Hk.
    rewrite <- Hk. replace (Z.to_nat (Z.of_nat k + 1)) with (S k) by lia.
    rewrite seq_S, map_app, Hy, Ht, Hl. f_equal. simpl. unfold group_frame.
    do 2 f_equal. symmetry. apply slice_last_clip; [lia|].
    pose proof (Z.div_mod (N - 1) n ltac:(lia)) as Hd.
    pose proof (Z.mod_pos_bound (N - 1) n n_pos) as Hb.
    rewrite Hk. nia.
Qed.
End Walk.

(** ** toArray in closed form *)

Lemma last_item_cons (d : Z) (l : list Z) : last_item (d :: l) = Ok (last (d :: l) 0).
Proof. reflexivity. Qed.

Lemma last_pos (dims : list Z) :
  dims <> [] -> Forall (fun d => 0 < d) dims -> 0 < last dims 0.
Proof.
  intros Hne Hpos. induction Hpos as [|d l Hd Hl IH]; [congruence|].
  destruct l as [|d' l']; [exact Hd|].
  change (last (d :: d' :: l') 0) with (last (d' :: l') 0).
  apply IH. discriminate.
Qed.

(** With [nplanes] unset the one frame is the whole array, keyed by the
    record's position. *)
Lemma toArray_whole (dims : list Z) (dt : dtype) (idx : Z) (buf : bytes) :
  Forall (fun d => 0 < d) dims ->
  prod dims * itemsize dt <= Z.of_nat (length buf) ->
  toArray dims dt None (idx, buf) = Ok [(idx, decoded dims dt buf)].
Proof.
  intros Hpos Hlen. unfold toArray.
  pose proof (decode_ok dims dt buf Hpos Hlen) as Hd.
  destruct (frombuffer buf dt (prod dims)) as [flat|e]; cbn [bind] in *;
    [|discriminate].
  rewrite Hd. reflexivity.
Qed.

(** With [nplanes = n] the frames of record [idx] are the time points
    [0 .. npoints-1], in order. *)
Lemma toArray_frames (dims : list Z) (dt : dtype) (n idx : Z) (buf : bytes) :
  dims <> [] -> Forall (fun d => 0 < d) dims -> 0 < n ->
  prod dims * itemsize dt <= Z.of_nat (length buf) ->
  let npoints := stack_npoints (last dims 0) n in
  toArray dims dt (Some n) (idx, buf)
  = Ok (map (group_frame idx npoints n (decoded dims dt buf))
            (seq 0 (Z.to_nat npoints))).
Proof.
  intros Hne Hpos Hn Hlen npoints. unfold toArray.
  pose proof (decode_ok dims dt buf Hpos Hlen) as Hd.
  destruct (frombuffer buf dt (prod dims)) as [flat|e]; cbn [bind] in *;
    [|discriminate].
  rewrite Hd. cbn [bind].
  pose proof (last_pos dims Hne Hpos) as HN.
  destruct dims as [|d l]; [congruence|]. rewrite last_item_cons. cbn [bind].
  destruct (n =? 0) eqn:E; [apply Z.eqb_eq in E; lia|].
  f_equal. fold npoints.
  change (shape (decoded (d :: l) dt buf)) with (d :: l).
  pose proof (walk_result idx npoints n (decoded (d :: l) dt buf) Hn) as Hw.
  change (shape (decoded (d :: l) dt buf)) with (d :: l) in Hw.
  cbv zeta in Hw. rewrite Hw by lia.
  unfold npoints. rewrite stack_npoints_ceil by assumption. reflexivity.
Qed.

(** ** Slices along the last axis *)

Lemma firstn_add {A : Type} (a b : nat) (l : list A) :
  firstn a l ++ firstn b (skipn a l) = firstn (a + b) l.
Proof.
  revert l. induction a as [|a IH]; intros l; [reflexivity|].
  destruct l as [|x l]; simpl.
  - now rewrite firstn_nil.
  - now rewrite IH.
Qed.

Lemma prod_app (l1 l2 : list Z) : prod (l1 ++ l2) = prod l1 * prod l2.
Proof.
  induction l1 as [|d l1 IH]; simpl; [destruct (prod l2); reflexivity|].
  rewrite IH. ring.
Qed.

Lemma prod_removelast (dims : list Z) :
  dims <> [] -> prod dims = prod (removelast dims) * last dims 0.
Proof.
  intros Hne. rewrite (app_removelast_last 0 Hne) at 1.
  rewrite prod_app. simpl. ring.
Qed.

Lemma prod_nonneg (dims : list Z) : Forall (fun d => 0 <= d) dims -> 0 <= prod dims.
Proof.
  induction 1 as [|d l Hd _ IH]; simpl; lia.
Qed.

Lemma Forall_removelast {A : Type} (P : A -> Prop) (l : list A) :
  Forall P l -> Forall P (removelast l).
Proof.
  induction 1 as [|x l Hx Hl IH]; simpl; [constructor|].
  destruct l; [constructor|]. constructor; assumption.
Qed.

Lemma decoded_well_formed (dims : list Z) (dt : dtype) (buf : bytes) :
  Forall (fun d => 0 < d) dims -> well_formed (decoded dims dt buf).
Proof.
  intros Hpos. split; simpl.
  - eapply Forall_impl; [|exact Hpos]. simpl. intros; lia.
  - rewrite length_items. pose proof (prod_pos dims Hpos). lia.
Qed.

Section Slices.
Variable ary : ndarray.
Hypothesis ary_wf : well_formed ary.
Hypothesis ary_dims : shape ary <> [].

Let N := last (shape ary) 0.
Let ps := prod (removelast (shape ary)).

Lemma last_axis_nonneg : 0 <= N.
Proof.
  destruct ary_wf as [Hs _]. unfold N.
  destruct (exists_last ary_dims) as (l & x & E). rewrite E in *.
  rewrite last_last. apply Forall_app in Hs. destruct Hs as [_ Hx].
  now inversion Hx.
Qed.

Lemma plane_size_nonneg : 0 <= ps.
Proof.
  destruct ary_wf as [Hs _]. apply prod_nonneg, Forall_removelast, Hs.
Qed.

Lemma data_length : Z.of_nat (length (data ary)) = ps * N.
Proof.
  destruct ary_wf as [_ Hl]. rewrite Hl. now apply prod_removelast.
Qed.

(** A slice [a:b] with [0 <= a <= b] has [min b N - min a N] planes. *)
Lemma slice_last_nplanes (a b : Z) :
  0 <= a <= b ->
  nplanes_of (slice_last ary a b) = Z.min b N - Z.min a N.
Proof.
  intros Hab. unfold nplanes_of, slice_last. cbn [shape].
  rewrite last_last. fold N. unfold slice_bound.
  destruct (a <? 0) eqn:E1; [apply Z.ltb_lt in E1; lia|].
  destruct (b <? 0) eqn:E2; [apply Z.ltb_lt in E2; lia|]. lia.
Qed.

Lemma slice_last_shape (a b : Z) :
  0 <= a <= b ->
  shape (slice_last ary a b) = removelast (shape ary) ++ [Z.min b N - Z.min a N].
Proof.
  intros Hab. unfold slice_last. cbn [shape]. fold N. unfold slice_bound.
  destruct (a <? 0) eqn:E1; [apply Z.ltb_lt in E1; lia|].
  destruct (b <? 0) eqn:E2; [apply Z.ltb_lt in E2; lia|].
  do 2 f_equal. lia.
Qed.

(** The whole last axis, sliced, is the array itself. *)
Lemma slice_last_all (b : Z) : N <= b -> slice_last ary 0 b = ary.
Proof.
  intros Hb. pose proof last_axis_nonneg as HN.
  pose proof plane_size_nonneg as Hps. pose proof data_length as Hlen.
  unfold slice_last. fold N ps. unfold slice_bound.
  destruct (0 <? 0) eqn:E1; [discriminate|].
  destruct (b <? 0) eqn:E2; [apply Z.ltb_lt in E2; lia|].
  rewrite (Z.min_l 0 N) by lia. rewrite (Z.min_r b N) by lia.
  rewrite Z.sub_0_r, (Z.max_r 0 N) by lia. simpl skipn.
  rewrite firstn_all2 by lia.
  destruct ary as [sh d]. simpl in *. f_equal.
  symmetry. now apply app_removelast_last.
Qed.

(** Consecutive groups of [n] planes, taken from plane 0 on, are a prefix
    of the items. *)
Lemma groups_prefix (n : Z) (k : nat) :
  0 < n ->
  concat (map (fun t => data (slice_last ary (Z.of_nat t * n) ((Z.of_nat t + 1) * n)))
              (seq 0 k))
  = firstn (Z.to_nat (Z.min (Z.of_nat k * n) N * ps)) (data ary).
Proof.
  intros Hn. pose proof last_axis_nonneg as HN.
  pose proof plane_size_nonneg as Hps.
  induction k as [|k IH].
  { cbn [seq map concat Z.of_nat Z.mul]. now rewrite Z.min_l by lia. }
  rewrite seq_S, map_app, concat_app, IH. simpl concat. rewrite app_nil_r.
  unfold slice_last. cbn [data]. fold N ps. unfold slice_bound.
  destruct (Z.of_nat k * n <? 0) eqn:E1; [apply Z.ltb_lt in E1; nia|].
  destruct ((Z.of_nat k + 1) * n <? 0) eqn:E2; [apply Z.ltb_lt in E2; nia|].
  rewrite firstn_add. f_equal.
  replace (Z.of_nat (S k) * n) with ((Z.of_nat k + 1) * n) by lia.
  assert (Z.min (Z.of_nat k * n) N <= Z.min ((Z.of_nat k + 1) * n) N) by nia.
  rewrite Z.max_r by lia. rewrite <- Z2Nat.inj_add by nia. f_equal. ring.
Qed.
End Slices.

(** The frames of one record, laid end to end, are the items of the decoded
    array: every plane lands in exactly one frame, in order. *)
Lemma frames_cover (dims : list Z) (dt : dtype) (n idx : Z) (buf : bytes) :
  dims <> [] -> Forall (fun d => 0 < d) dims -> 0 < n ->
  let ary := decoded dims dt buf in
  let npoints := stack_npoints (last dims 0) n in
  concat (map (fun t => data (snd (group_frame idx npoints n ary t)))
              (seq 0 (Z.to_nat npoints)))
  = data ary.
Proof.
  intros Hne Hpos Hn ary npoints. unfold group_frame. cbn [snd].
  pose proof (decoded_well_formed dims dt buf Hpos) as Hwf. fold ary in Hwf.
  assert (Hs : shape ary <> []) by exact Hne.
  rewrite (groups_prefix ary Hwf Hs n _ Hn).
  pose proof (last_pos dims Hne Hpos) as HN.
  pose proof (data_length ary Hwf Hs) as Hlen.
  pose proof (plane_size_nonneg ary Hwf) as Hps.
  change (shape ary) with dims in *.
  apply firstn_all2.
  assert (Hge : last dims 0 <= Z.of_nat (Z.to_nat npoints) * n).
  { unfold npoints. rewrite stack_npoints_ceil by assumption.
    pose proof (Z.div_mod (last dims 0 - 1) n ltac:(lia)) as Hd.
    pose proof (Z.mod_pos_bound (last dims 0 - 1) n Hn) as Hb.
    assert (0 <= (last dims 0 - 1) / n) by (apply Z.div_pos; lia).
    rewrite Z2Nat.id by lia. nia. }
  rewrite Z.min_r by lia. nia.
Qed.

(** ** The frames of one stack record *)



(** C4. For a record of dims (2,2,5) decoded with nplanes = 2 the frames are
    the plane ranges 0:2, 2:4 and 4:5, of 2, 2 and 1 planes, and laid end to
    end they are the items of the array, so each plane is covered once; and
    for any dims and nplanes the number of frames of a record is
    total/nplanes, plus one when total mod nplanes is not zero, the key of
    the frame with local index t being idx * (that count) + t. *)
Theorem stack_remainder_groups :
  (forall (dt : dtype) (idx : Z) (buf : bytes),
     prod [2; 2; 5] * itemsize dt <= Z.of_nat (length buf) ->
     let ary := decoded [2; 2; 5] dt buf in
     let f0 := slice_last ary 0 2 in
     let f1 := slice_last ary 2 4 in
     let f2 := slice_last ary 4 5 in
     toArray [2; 2; 5] dt (Some 2) (idx, buf)
     = Ok [(idx * 3 + 0, f0); (idx * 3 + 1, f1); (idx * 3 + 2, f2)] /\
     nplanes_of f0 = 2 /\ nplanes_of f1 = 2 /\ nplanes_of f2 = 1 /\
     nplanes_of ary = 5 /\
     data f0 ++ data f1 ++ data f2 = data ary) /\
  (forall (dims : list Z) (dt : dtype) (n idx : Z) (buf : bytes),
     dims <> [] -> Forall (fun d => 0 < d) dims -> 0 < n ->
     prod dims * itemsize dt <= Z.of_nat (length buf) ->
     let total := last dims 0 in
     let groupsPerFile := total / n + (if total mod n =? 0 then 0 else 1) in
     exists frames : list (Z * ndarray),
       toArray dims dt (Some n) (idx, buf) = Ok frames /\
       Z.of_nat (length frames) = groupsPerFile /\
       map fst frames
       = map (fun t => idx * groupsPerFile + Z.of_nat t) (seq 0 (length frames)) /\
       concat (map (fun f => data (snd f)) frames) = data (decoded dims dt buf)).
Proof.
  split.
  - intros dt idx buf Hlen ary f0 f1 f2.
    assert (Hpos : Forall (fun d => 0 < d) [2; 2; 5]) by (repeat constructor; lia).
    split.
    { rewrite toArray_frames; [| discriminate | assumption | lia | assumption].
      fold ary. unfold f2.
      assert (slice_last ary 4 6 = slice_last ary 4 5) as <-
        by (apply (slice_last_clip ary 4 6); simpl; lia).
      reflexivity. }
    repeat split; reflexivity.
  - intros dims dt n idx buf Hne Hpos Hn Hlen total groupsPerFile.
    assert (Hg : groupsPerFile = stack_npoints total n).
    { unfold groupsPerFile, stack_npoints.
      destruct (total mod n =? 0); simpl; lia. }
    pose proof (stack_npoints_pos total n Hn (last_pos dims Hne Hpos)) as Hgp.
    eexists. split; [apply toArray_frames; assumption|]. fold total.
    rewrite <- Hg. rewrite length_map, length_seq.
    split; [lia|]. split.
    + rewrite map_map. reflexivity.
    + rewrite map_map. rewrite Hg. apply frames_cover; assumption.
Qed.

Lemma stack_remainder_groups_witness :
  (prod [2; 2; 5] * itemsize int8 <= Z.of_nat (length (zeros 20)) /\
   map fst (match toArray [2; 2; 5] int8 (Some 2) (3, zeros 20) with
            | Ok frames => frames
            | Raise _ => []
            end) = [3 * 3 + 0; 3 * 3 + 1; 3 * 3 + 2]) /\
  ([2; 2; 7] <> [] /\ Forall (fun d => 0 < d) [2; 2; 7] /\ 0 < 3 /\
   prod [2; 2; 7] * itemsize int16 <= Z.of_nat (length (zeros 56)) /\
   exists frames : list (Z * ndarray),
     toArray [2; 2; 7] int16 (Some 3) (1, zeros 56) = Ok frames /\
     Z.of_nat (length frames) = 3).
Proof.
  assert (H1 : prod [2; 2; 5] * itemsize int8 <= Z.of_nat (length (zeros 20)))
    by (vm_compute; discriminate).
  assert (H2 : prod [2; 2; 7] * itemsize int16 <= Z.of_nat (length (zeros 56)))
    by (vm_compute; discriminate).
  assert (H3 : Forall (fun d => 0 < d) [2; 2; 7]) by (repeat constructor; lia).
  split.
  - split; [exact H1|].
    destruct (proj1 stack_remainder_groups int8 3 (zeros 20) H1) as [E _].
    rewrite E. reflexivity.
  - repeat (split; [first [discriminate | assumption | lia]|]).
    destruct (proj2 stack_remainder_groups [2; 2; 7] int16 3 1 (zeros 56)
                ltac:(discriminate) H3 ltac:(lia) H2) as (frames & E & Hn & _).
    exists frames. split; [exact E|exact Hn].
Defined.

(** C2, as the code has it. When the last axis is an exact positive multiple
    of nplanes, the walk stops one plane short of the last boundary, so the
    trailing yield is the last full group: it holds exactly nplanes planes
    (the planes total-nplanes .. total-1) and comes after the total/nplanes - 1
    groups closed inside the loop. *)
Theorem stack_exact_multiple_trailing_full
  (dims : list Z) (dt : dtype) (n idx : Z) (buf : bytes) :
  dims <> [] -> Forall (fun d => 0 < d) dims -> 0 < n ->
  last dims 0 mod n = 0 ->
  prod dims * itemsize dt <= Z.of_nat (length buf) ->
  let total := last dims 0 in
  exists (front : list (Z * ndarray)) (key : Z) (fr : ndarray),
    toArray dims dt (Some n) (idx, buf) = Ok (front ++ [(key, fr)]) /\
    Z.of_nat (length front) = total / n - 1 /\
    fr = slice_last (decoded dims dt buf) (total - n) total /\
    nplanes_of fr = n.
Proof.
  intros Hne Hpos Hn Hmod Hlen total.
  pose proof (last_pos dims Hne Hpos) as HN.
  rewrite toArray_frames by assumption.
  set (ary := decoded dims dt buf).
  assert (Htot : last (shape ary) 0 = total) by reflexivity.
  fold total in HN, Hmod |- *. clearbody total.
  pose proof (Z.div_mod total n ltac:(lia)) as Hd. rewrite Hmod in Hd.
  assert (Hq : 1 <= total / n) by nia.
  assert (Hnp : stack_npoints total n = total / n).
  { unfold stack_npoints. rewrite Hmod. reflexivity. }
  rewrite Hnp.
  replace (Z.to_nat (total / n)) with (S (Z.to_nat (total / n - 1))) by lia.
  rewrite seq_S, map_app. cbn [map Nat.add].
  unfold group_frame at 2. rewrite Z2Nat.id by lia.
  assert (E : slice_last ary ((total / n - 1) * n) ((total / n - 1 + 1) * n)
              = slice_last ary (total - n) total).
  { assert (Hd' : total / n * n = total) by lia.
    f_equal; [rewrite Z.mul_sub_distr_r, Hd'; lia|].
    replace (total / n - 1 + 1) with (total / n) by lia. exact Hd'. }
  rewrite E.
  eexists _, _, _. split; [reflexivity|].
  rewrite length_map, length_seq, Z2Nat.id by lia.
  split; [reflexivity|]. split; [reflexivity|].
  assert (n <= total) by nia.
  rewrite slice_last_nplanes by lia.
  rewrite Htot. lia.
Qed.

Lemma stack_exact_multiple_trailing_full_witness :
  exists (front : list (Z * ndarray)) (key : Z) (fr : ndarray),
    toArray [2; 2; 6] int16 (Some 2) (0, zeros 48) = Ok (front ++ [(key, fr)]) /\
    Z.of_nat (length front) = 6 / 2 - 1 /\
    fr = slice_last (decoded [2; 2; 6] int16 (zeros 48)) (6 - 2) 6 /\
    nplanes_of fr = 2.
Proof.
  apply (stack_exact_multiple_trailing_full [2; 2; 6] int16 2 0 (zeros 48));
    first [discriminate | reflexivity | lia | (repeat constructor; lia)
           | (vm_compute; discriminate)].
Defined.

(** C2 as stated fails: with dims (2,2,6) and nplanes = 2 the trailing frame
    is not a group of zero planes. *)
Lemma stack_exact_multiple_not_empty :
  ~ (forall (front : list (Z * ndarray)) (key : Z) (fr : ndarray),
       toArray [2; 2; 6] int16 (Some 2) (0, zeros 48) = Ok (front ++ [(key, fr)]) ->
       nplanes_of fr = 0).
Proof.
  intros H.
  pose (ary := decoded [2; 2; 6] int16 (zeros 48)).
  specialize (H [(0, slice_last ary 0 2); (1, slice_last ary 2 4)]
                2 (slice_last ary 4 6) eq_refl).
  discriminate H.
Qed.

(** C10. When nplanes is at least the (positive) length of the last axis, the
    per-record count of time points is 1 and the record yields exactly one
    frame: the whole decoded array, with all [dims[-1]] planes, keyed by the
    record's position. *)
Theorem stack_single_group
  (dims : list Z) (dt : dtype) (n idx : Z) (buf : bytes) :
  dims <> [] -> Forall (fun d => 0 < d) dims ->
  last dims 0 <= n ->
  prod dims * itemsize dt <= Z.of_nat (length buf) ->
  stack_npoints (last dims 0) n = 1 /\
  toArray dims dt (Some n) (idx, buf) = Ok [(idx, decoded dims dt buf)] /\
  nplanes_of (decoded dims dt buf) = last dims 0.
Proof.
  intros Hne Hpos Hle Hlen.
  pose proof (last_pos dims Hne Hpos) as HN.
  assert (Hn : 0 < n) by lia.
  assert (Hnp : stack_npoints (last dims 0) n = 1).
  { rewrite stack_npoints_ceil by assumption.
    rewrite Z.div_small by lia. reflexivity. }
  split; [exact Hnp|]. split; [|reflexivity].
  rewrite toArray_frames by assumption. rewrite Hnp.
  change (Z.to_nat 1) with 1%nat. cbn [seq map]. unfold group_frame.
  cbn [Z.of_nat]. change (0 * n) with 0.
  replace (idx * 1 + 0) with idx by ring.
  rewrite slice_last_all; [reflexivity| | |].
  - apply decoded_well_formed, Hpos.
  - exact Hne.
  - cbn [shape decoded]. lia.
Qed.

Lemma stack_single_group_witness :
  stack_npoints (last [2; 2; 3] 0) 4 = 1 /\
  toArray [2; 2; 3] int16 (Some 4) (5, zeros 24)
  = Ok [(5, decoded [2; 2; 3] int16 (zeros 24))] /\
  nplanes_of (decoded [2; 2; 3] int16 (zeros 24)) = last [2; 2; 3] 0.
Proof.
  apply (stack_single_group [2; 2; 3] int16 4 5 (zeros 24));
    first [discriminate | (repeat constructor; lia) | (vm_compute; discriminate)].
Defined.

(** C9, as the code has it. [frombuffer] is called with an explicit item
    count, so for dims and element type whose byte size [prod dims * itemsize]
    is below 2^63 (where numpy's 64-bit product and the count and size that
    [frombuffer] computes are exact) decoding a record succeeds exactly when
    the buffer holds at least that many bytes (bytes beyond them are
    ignored), and a shorter buffer raises [ValueError]. *)
Theorem stack_buffer_at_least
  (dims : list Z) (dt : dtype) (nplanes : option Z) (idx : Z) (buf : bytes) :
  dims <> [] -> Forall (fun d => 0 < d) dims ->
  prod dims * itemsize dt < 2 ^ 63 ->
  (forall n, nplanes = Some n -> 0 < n) ->
  ((exists frames, toArray dims dt nplanes (idx, buf) = Ok frames) <->
   prod dims * itemsize dt <= Z.of_nat (length buf)) /\
  (Z.of_nat (length buf) < prod dims * itemsize dt ->
   toArray dims dt nplanes (idx, buf)
   = Raise (ValueError "buffer is smaller than requested size")) /\
  (prod dims * itemsize dt <= Z.of_nat (length buf) ->
   toArray dims dt nplanes (idx, buf)
   = toArray dims dt nplanes
       (idx, firstn (Z.to_nat (prod dims * itemsize dt)) buf)).
Proof.
  intros Hne Hpos _ Hn.
  assert (Hshort : Z.of_nat (length buf) < prod dims * itemsize dt ->
                   toArray dims dt nplanes (idx, buf)
                   = Raise (ValueError "buffer is smaller than requested size")).
  { intros Hlt. unfold toArray.
    pose proof (decode_short dims dt buf Hpos Hlt) as Hd.
    destruct (frombuffer buf dt (prod dims)) as [flat|e]; cbn [bind] in *.
    - rewrite Hd. reflexivity.
    - now inversion Hd. }
  assert (Hok : forall b, prod dims * itemsize dt <= Z.of_nat (length b) ->
                exists frames, toArray dims dt nplanes (idx, b) = Ok frames).
  { intros b Hle. destruct nplanes as [n|].
    - eexists. apply toArray_frames; auto.
    - eexists. apply toArray_whole; auto. }
  split; [|split; [exact Hshort|]].
  - split; [|apply Hok].
    intros [frames E].
    destruct (Z_lt_le_dec (Z.of_nat (length buf)) (prod dims * itemsize dt))
      as [Hlt|Hle]; [|exact Hle].
    rewrite (Hshort Hlt) in E. discriminate.
  - intros Hle.
    assert (Hsz : 0 <= prod dims * itemsize dt).
    { pose proof (prod_pos dims Hpos). destruct dt; simpl; lia. }
    assert (Hle' : prod dims * itemsize dt
                   <= Z.of_nat (length (firstn (Z.to_nat (prod dims * itemsize dt)) buf))).
    { rewrite length_firstn. lia. }
    assert (Hdec : decoded dims dt (firstn (Z.to_nat (prod dims * itemsize dt)) buf)
                   = decoded dims dt buf).
    { unfold decoded. f_equal.
      pose proof (prod_pos dims Hpos) as Hp.
      assert (Hi : 0 < itemsize dt) by (destruct dt; simpl; lia).
      rewrite Z2Nat.inj_mul by lia. apply items_firstn. }
    destruct nplanes as [n|].
    + rewrite !toArray_frames by auto. now rewrite Hdec.
    + rewrite !toArray_whole by auto. now rewrite Hdec.
Qed.

Lemma stack_buffer_at_least_witness :
  ((exists frames, toArray [2; 2; 6] int8 (Some 2) (0, zeros 25) = Ok frames) <->
   prod [2; 2; 6] * itemsize int8 <= Z.of_nat (length (zeros 25))) /\
  (Z.of_nat (length (zeros 25)) < prod [2; 2; 6] * itemsize int8 ->
   toArray [2; 2; 6] int8 (Some 2) (0, zeros 25)
   = Raise (ValueError "buffer is smaller than requested size")) /\
  (prod [2; 2; 6] * itemsize int8 <= Z.of_nat (length (zeros 25)) ->
   toArray [2; 2; 6] int8 (Some 2) (0, zeros 25)
   = toArray [2; 2; 6] int8 (Some 2)
       (0, firstn (Z.to_nat (prod [2; 2; 6] * itemsize int8)) (zeros 25))).
Proof.
  apply (stack_buffer_at_least [2; 2; 6] int8 (Some 2) 0 (zeros 25)).
  - discriminate.
  - repeat constructor; lia.
  - reflexivity.
  - intros n E. injection E as <-. lia.
Defined.

(** C9 as stated fails: a 25-byte buffer decodes as dims (2,2,6) of int8,
    although the exact byte size is 24. *)
Lemma stack_buffer_longer_decodes :
  ~ ((exists frames, toArray [2; 2; 6] int8 None (0, zeros 25) = Ok frames) <->
     Z.of_nat (length (zeros 25)) = prod [2; 2; 6] * itemsize int8).
Proof.
  intros [H _].
  assert (E : Z.of_nat (length (zeros 25)) = prod [2; 2; 6] * itemsize int8).
  { apply H. eexists. reflexivity. }
  discriminate E.
Qed.

(** ** Argument checks and metadata *)

(** C7. fromStack raises ValueError, whatever the files hold, when dims is
    missing or empty or when nplanes is passed and is zero or negative, and
    returns a collection when dims is non-empty and nplanes is absent or
    positive; fromTif (once PIL is imported) raises ValueError for a zero or
    negative nplanes and returns a collection otherwise. The checks precede
    the read, so no record is decoded before the error. *)
Theorem validator_config_errors :
  (forall (files : list bytes) (dims : option (list Z)) (dt : dtype)
          (nplanes : option Z),
     dims = None \/ dims = Some [] \/ (exists n, nplanes = Some n /\ n <= 0) ->
     exists msg, fromStack files dims dt nplanes = Raise (ValueError msg)) /\
  (forall (files : list bytes) (d : Z) (ds : list Z) (dt : dtype)
          (nplanes : option Z),
     (forall n, nplanes = Some n -> 0 < n) ->
     exists imgs, fromStack files (Some (d :: ds)) dt nplanes = Ok imgs) /\
  (forall (pilimg : Type) (array pil_to_array : pilimg -> result ndarray)
          (Image : PILImage pilimg) (files : list bytes) (n : Z),
     n <= 0 ->
     exists msg,
       fromTif pilimg array pil_to_array (Some Image) files (Some n)
       = Raise (ValueError msg)) /\
  (forall (pilimg : Type) (array pil_to_array : pilimg -> result ndarray)
          (Image : PILImage pilimg) (files : list bytes) (nplanes : option Z),
     (forall n, nplanes = Some n -> 0 < n) ->
     exists imgs,
       fromTif pilimg array pil_to_array (Some Image) files nplanes = Ok imgs).
Proof.
  repeat split.
  - intros files dims dt nplanes [-> | [-> | (n & -> & Hn)]].
    + eexists. reflexivity.
    + eexists. reflexivity.
    + unfold fromStack, check_nplanes.
      destruct dims as [[|d ds]|]; try (eexists; reflexivity).
      destruct (n <=? 0) eqn:E; [eexists; reflexivity|].
      apply Z.leb_gt in E. lia.
  - intros files d ds dt [n|] Hn; unfold fromStack, check_nplanes.
    + specialize (Hn n eq_refl).
      destruct (n <=? 0) eqn:E; [apply Z.leb_le in E; lia|].
      eexists. reflexivity.
    + eexists. reflexivity.
  - intros pilimg array pil_to_array Image files n Hn.
    unfold fromTif, check_nplanes.
    destruct (n <=? 0) eqn:E; [|apply Z.leb_gt in E; lia].
    eexists. reflexivity.
  - intros pilimg array pil_to_array Image files [n|] Hn;
      unfold fromTif, check_nplanes.
    + specialize (Hn n eq_refl).
      destruct (n <=? 0) eqn:E; [apply Z.leb_le in E; lia|].
      eexists. reflexivity.
    + eexists. reflexivity.
Qed.

Lemma validator_config_errors_witness :
  (exists msg, fromStack [zeros 3] (Some []) int16 None = Raise (ValueError msg)) /\
  (exists msg,
     fromStack [zeros 3] (Some [2; 2; 6]) int16 (Some 0) = Raise (ValueError msg)) /\
  (exists imgs, fromStack [zeros 3] (Some [2; 2; 6]) int16 (Some 2) = Ok imgs) /\
  (exists msg,
     fromTif Byte.byte toy_page toy_page (Some toy_PIL) [zeros 3] (Some 0)
     = Raise (ValueError msg)) /\
  (exists imgs,
     fromTif Byte.byte toy_page toy_page (Some toy_PIL) [zeros 3] None = Ok imgs).
Proof.
  destruct validator_config_errors as (H1 & H2 & H3 & H4).
  split; [apply H1; right; left; reflexivity|].
  split; [apply H1; right; right; exists 0; split; [reflexivity|lia]|].
  split; [apply H2; intros n E; injection E as <-; lia|].
  split; [apply H3; lia|].
  apply H4. intros n E. discriminate E.
Defined.

(** C6, as the code has it. The frame count handed to the collection is the
    number of records whenever nplanes is unset (fromStack, fromTif) and
    always for fromPng; whenever nplanes is set it is the unknown value
    [None], for fromStack as well as for fromTif. *)
Theorem frame_count_metadata :
  (forall (files : list bytes) (dims : list Z) (dt : dtype) (imgs : Images),
     fromStack files (Some dims) dt None = Ok imgs ->
     nimages imgs = Some (Z.of_nat (length files))) /\
  (forall (files : list bytes) (dims : list Z) (dt : dtype) (n : Z) (imgs : Images),
     fromStack files (Some dims) dt (Some n) = Ok imgs ->
     nimages imgs = None) /\
  (forall (pilimg : Type) (array pil_to_array : pilimg -> result ndarray)
          (Image : option (PILImage pilimg)) (files : list bytes) (imgs : Images),
     fromTif pilimg array pil_to_array Image files None = Ok imgs ->
     nimages imgs = Some (Z.of_nat (length files))) /\
  (forall (pilimg : Type) (array pil_to_array : pilimg -> result ndarray)
          (Image : option (PILImage pilimg)) (files : list bytes) (n : Z)
          (imgs : Images),
     fromTif pilimg array pil_to_array Image files (Some n) = Ok imgs ->
     nimages imgs = None) /\
  (forall (imread : bytes -> result ndarray) (files : list bytes),
     nimages (fromPng imread files) = Some (Z.of_nat (length files))).
Proof.
  repeat split.
  - intros files [|d ds] dt imgs E; [discriminate|].
    injection E as <-. reflexivity.
  - intros files [|d ds] dt n imgs E; [discriminate|].
    unfold fromStack, check_nplanes in E. destruct (n <=? 0); [discriminate|].
    injection E as <-. reflexivity.
  - intros pilimg array pil_to_array [Image|] files imgs E; [|discriminate].
    injection E as <-. reflexivity.
  - intros pilimg array pil_to_array [Image|] files n imgs E; [|discriminate].
    unfold fromTif, check_nplanes in E. destruct (n <=? 0); [discriminate|].
    injection E as <-. reflexivity.
Qed.

Lemma frame_count_metadata_witness :
  (fromStack [zeros 24; zeros 24] (Some [2; 2; 6]) int8 None
   = Ok (mkImages (flatMap (toArray [2; 2; 6] int8 None)
                           (enumerate_from 0 [zeros 24; zeros 24]))
                  (Some 2) (Some [2; 2; 6]) (Some int8)) /\
   Some 2 = Some (Z.of_nat (length [zeros 24; zeros 24]))) /\
  (forall imgs,
     fromStack [zeros 24; zeros 24] (Some [2; 2; 6]) int8 (Some 2) = Ok imgs ->
     nimages imgs = None) /\
  (forall imgs,
     fromTif Byte.byte toy_page toy_page (Some toy_PIL) [zeros 5; zeros 3] (Some 2)
     = Ok imgs ->
     nimages imgs = None).
Proof.
  destruct frame_count_metadata as (H1 & H2 & H3 & H4 & H5).
  split; [split; [reflexivity|]|split].
  - exact (H1 [zeros 24; zeros 24] [2; 2; 6] int8 _ eq_refl).
  - intros imgs E. exact (H2 _ _ _ _ _ E).
  - intros imgs E. exact (H4 _ _ _ _ _ _ _ E).
Defined.

(** C6 as stated fails: fromStack with dims (2,2,6) and nplanes = 2, where
    every record yields three frames, reports no frame count at all. *)
Lemma stack_split_count_unknown :
  ~ (exists (imgs : Images) (count : Z),
       fromStack [zeros 24; zeros 24] (Some [2; 2; 6]) int8 (Some 2) = Ok imgs /\
       nimages imgs = Some count).
Proof.
  intros (imgs & count & E & Hc).
  injection E as <-. discriminate Hc.
Qed.

(** ** fromPng *)

Lemma mapValues_enumerate {A B : Type} (f : A -> result B) (l : list A) :
  forall (i : Z) (ys : list B),
    mapM f l = Ok ys ->
    mapValues f (enumerate_from i l) = Ok (enumerate_from i ys).
Proof.
  unfold mapValues.
  induction l as [|x xs IH]; intros i ys E; simpl in *.
  - injection E as <-. reflexivity.
  - destruct (f x) as [y|e]; simpl in *; [|discriminate].
    destruct (mapM f xs) as [ys'|e] eqn:E'; simpl in *; [|discriminate].
    injection E as <-. rewrite (IH (i + 1) ys' eq_refl). reflexivity.
Qed.

Lemma mapValues_keys {K A B : Type} (f : A -> result B) (r : list (K * A)) :
  forall frames,
    mapValues f r = Ok frames ->
    map fst frames = map fst r /\
    Forall2 (fun rec fr => f (snd rec) = Ok (snd fr)) r frames.
Proof.
  unfold mapValues.
  induction r as [|[k v] r IH]; intros frames E; simpl in *.
  - injection E as <-. split; constructor.
  - destruct (f v) as [y|e] eqn:Ef; simpl in *; [|discriminate].
    destruct (mapM _ r) as [ys|e]; simpl in *; [|discriminate].
    injection E as <-. destruct (IH ys eq_refl) as [H1 H2].
    split; simpl; [now rewrite H1|]. constructor; assumption.
Qed.

Lemma enumerate_from_keys {A : Type} (l : list A) (i : Z) :
  map fst (enumerate_from i l)
  = map (fun t => i + Z.of_nat t) (seq 0 (length l)).
Proof.
  revert i. induction l as [|x xs IH]; intros i; [reflexivity|].
  cbn [enumerate_from map fst length seq]. rewrite IH, <- seq_shift, map_map.
  f_equal; [simpl; lia|]. apply map_ext. intros t. lia.
Qed.

(** C8. fromPng has no nplanes argument. Its frame count is the number of
    records, whatever the buffers hold and without decoding any; when every
    buffer decodes, the collection holds exactly one frame per record, the
    i-th being the decoded i-th buffer under key i; and whenever the
    collection evaluates, its keys are the records' positions and each frame
    is the decoding of its record's buffer. *)
Theorem png_one_frame_per_record
  (imread : bytes -> result ndarray) (files : list bytes) :
  nimages (fromPng imread files) = Some (Z.of_nat (length files)) /\
  (forall imgs : list ndarray,
     mapM imread files = Ok imgs ->
     rdd (fromPng imread files) = Ok (enumerate_from 0 imgs) /\
     length imgs = length files) /\
  (forall frames : list (Z * ndarray),
     rdd (fromPng imread files) = Ok frames ->
     map fst frames = map (fun t => 0 + Z.of_nat t) (seq 0 (length files)) /\
     Forall2 (fun rec fr => imread (snd rec) = Ok (snd fr))
             (enumerate_from 0 files) frames).
Proof.
  split; [reflexivity|]. split.
  - intros imgs E. split.
    + unfold fromPng. cbn [rdd reader_read readerRdd].
      now apply mapValues_enumerate.
    + revert imgs E. induction files as [|x xs IH]; intros imgs E; simpl in *.
      * injection E as <-. reflexivity.
      * destruct (imread x); simpl in *; [|discriminate].
        destruct (mapM imread xs) eqn:E'; simpl in *; [|discriminate].
        injection E as <-. simpl. now rewrite (IH _ eq_refl).
  - intros frames E. unfold fromPng in E. cbn [rdd reader_read readerRdd] in E.
    destruct (mapValues_keys _ _ _ E) as [H1 H2].
    split; [|exact H2]. rewrite H1. apply enumerate_from_keys.
Qed.

Lemma png_one_frame_per_record_witness :
  rdd (fromPng toy_imread [zeros 2; zeros 3])
  = Ok (enumerate_from 0 [mkArray [1; 2] [[Byte.x00]; [Byte.x00]];
                          mkArray [1; 3] [[Byte.x00]; [Byte.x00]; [Byte.x00]]]) /\
  map fst (enumerate_from 0 [mkArray [1; 2] [[Byte.x00]; [Byte.x00]];
                             mkArray [1; 3] [[Byte.x00]; [Byte.x00]; [Byte.x00]]])
  = [0; 1].
Proof.
  destruct (png_one_frame_per_record toy_imread [zeros 2; zeros 3])
    as (_ & H & H').
  destruct (H _ eq_refl) as [E _].
  split; [exact E|].
  destruct (H' _ E) as [Hk _]. exact Hk.
Defined.

(** ** Stacking pages *)

Lemma mapM_ok {A B : Type} (f : A -> result B) (g : A -> B) (l : list A) :
  Forall (fun x => f x = Ok (g x)) l -> mapM f l = Ok (map g l).
Proof.
  induction 1 as [|x l Hx _ IH]; simpl; [reflexivity|].
  now rewrite Hx, IH.
Qed.

Section Pages.
Variables h w : Z.

Lemma atleast_3d_page (a : ndarray) :
  page_ok h w a -> atleast_3d a = mkArray [h; w; 1] (data a).
Proof. intros [Hs _]. unfold atleast_3d. now rewrite Hs. Qed.

Lemma block_page (a : ndarray) :
  page_ok h w a -> block (mkArray [h; w; 1] (data a)) 0 = data a.
Proof.
  intros [_ Hl]. unfold block. cbn [shape data firstn prod fold_right].
  simpl skipn. apply firstn_all2. lia.
Qed.

Lemma same_but_axis2_refl (s : list Z) : same_but_axis2 s s = true.
Proof.
  unfold same_but_axis2. rewrite Nat.eqb_refl.
  destruct (list_eq_dec Z.eq_dec (firstn 2 s) (firstn 2 s)); [|congruence].
  destruct (list_eq_dec Z.eq_dec (skipn 3 s) (skipn 3 s)); [|congruence].
  reflexivity.
Qed.

Lemma axis2_total (l : list ndarray) :
  fold_right Z.add 0 (map (fun b => nth 2 (shape b) 0) (map (as3d h w) l))
  = Z.of_nat (length l).
Proof.
  induction l as [|x l IH]; [reflexivity|].
  cbn [map fold_right length]. rewrite IH. unfold as3d. cbn [shape nth]. lia.
Qed.

Lemma blocks_pages (l : list ndarray) :
  Forall (page_ok h w) l ->
  flat_map (fun b => block b 0) (map (as3d h w) l) = concat (map data l).
Proof.
  induction 1 as [|x l Hx _ IH]; [reflexivity|].
  cbn [map flat_map concat]. unfold as3d at 1.
  now rewrite (block_page x Hx), IH.
Qed.

(** [dstack] of pages of one shape (h, w) has shape (h, w, number of
    pages) and holds the pages one after the other. *)
Lemma dstack_pages (g : list ndarray) :
  g <> [] -> Forall (page_ok h w) g ->
  dstack g = Ok (mkArray [h; w; Z.of_nat (length g)] (concat (map data g))).
Proof.
  intros Hne Hg. unfold dstack.
  assert (Hm : map atleast_3d g = map (as3d h w) g).
  { apply map_ext_in. intros a Ha. apply atleast_3d_page.
    rewrite Forall_forall in Hg. now apply Hg. }
  rewrite Hm. destruct g as [|a g]; [congruence|].
  assert (Hall : forallb (fun b => same_but_axis2 (shape (as3d h w a)) (shape b))
                   (map (as3d h w) g) = true).
  { apply forallb_forall. intros b Hb. apply in_map_iff in Hb.
    destruct Hb as (a' & <- & _). apply same_but_axis2_refl. }
  cbn [map]. unfold concatenate2. rewrite Hall.
  change (as3d h w a :: map (as3d h w) g) with (map (as3d h w) (a :: g)).
  rewrite axis2_total.
  change (shape (as3d h w a)) with [h; w; 1].
  cbn [skipn firstn prod fold_right app].
  change (Z.to_nat 1) with 1%nat. cbn [seq flat_map]. rewrite app_nil_r.
  now rewrite blocks_pages.
Qed.

(** [retAry] on a non-empty group of such pages. *)
Lemma retAry_pages (g : list ndarray) :
  g <> [] -> Forall (page_ok h w) g -> retAry g = Ok (frame_of_group h w g).
Proof.
  intros Hne Hg. unfold retAry, frame_of_group.
  destruct g as [|a [|b g]]; [congruence|reflexivity|].
  change (1 <? length (a :: b :: g))%nat with true. cbv iota.
  now apply dstack_pages.
Qed.
End Pages.

(** ** The page walk of multitifReader *)

Lemma skipn_cons_nth {A : Type} (l : list A) (i : nat) (x : A) (r : list A) :
  skipn i l = x :: r -> nth_error l i = Some x /\ skipn (S i) l = r.
Proof.
  revert i. induction l as [|y l IH]; intros i E.
  - destruct i; discriminate.
  - destruct i as [|i]; simpl in *.
    + injection E as -> ->. split; reflexivity.
    + apply IH, E.
Qed.

Lemma skipn_nil_nth {A : Type} (l : list A) (i : nat) :
  skipn i l = [] -> nth_error l i = None.
Proof.
  intros E. rewrite <- hd_error_skipn, E. reflexivity.
Qed.

Section TifWalk.
Variable pilimg : Type.
Variable conversionFcn : pilimg -> result ndarray.
Variable nplanes : option Z.
Variable multipage : list pilimg.
Variable reset : Z.

(** The walk over the pages from [pageIdx = i] on, all of which convert:
    with more fuel than pages left it ends at the [break], on the state
    that [page_groups] describes. The count-down either restarts from
    [nplanes = reset], or is not positive and never reaches zero. *)
Lemma page_walk_breaks (imgs : list pilimg) (rest : list ndarray) :
  Forall2 (fun pg a => conversionFcn pg = Ok a) imgs rest ->
  forall (fuel i : nat) (cur : list ndarray) (o : option Z) (k : Z)
         (vs : list ndarray) (closed : list (list ndarray))
         (pending vals : list ndarray),
    skipn i multipage = imgs ->
    o = Some k ->
    nplanes = Some reset \/ k <= 0 ->
    page_groups reset cur k rest = (closed, pending) ->
    mapM retAry closed = Ok vals ->
    (length imgs < fuel)%nat ->
    exists o',
      page_walk pilimg conversionFcn nplanes fuel multipage (mkTif i cur o vs)
      = Ok (mkTif (i + length imgs) pending o' (vs ++ vals)).
Proof.
  induction 1 as [|pg a imgs rest Hpg _ IH];
    intros fuel i cur o k vs closed pending vals Hskip Ho Hk Hgr Hvals Hfuel.
  - destruct fuel as [|fuel]; [simpl in Hfuel; lia|].
    simpl in Hgr. injection Hgr as <- <-. simpl in Hvals. injection Hvals as <-.
    exists o. cbn [page_walk]. unfold page_step, seek. cbn [pageIdx].
    rewrite (skipn_nil_nth _ _ Hskip). cbn [try_].
    now rewrite Nat.add_0_r, app_nil_r.
  - destruct fuel as [|fuel]; [simpl in Hfuel; lia|].
    destruct (skipn_cons_nth _ _ _ _ Hskip) as [Hnth Hskip'].
    cbn [page_groups] in Hgr. cbn [page_walk]. unfold page_step, seek.
    cbn [pageIdx imgArys npagesLeft values]. rewrite Hnth. cbn [try_].
    rewrite Hpg. cbn [try_]. rewrite Ho.
    destruct (k - 1 =? 0) eqn:E.
    + apply Z.eqb_eq in E.
      destruct Hk as [Hreset|Hneg]; [|lia].
      destruct (page_groups reset [] reset rest) as [closed' pending'] eqn:Hgr'.
      injection Hgr as <- <-. cbn [mapM] in Hvals.
      destruct (retAry (cur ++ [a])) as [v|e]; [|discriminate].
      cbn [bind] in Hvals.
      destruct (mapM retAry closed') as [vals'|e] eqn:Hvals'; [|discriminate].
      cbn [bind] in Hvals. injection Hvals as <-.
      cbn [try_].
      destruct (IH fuel (S i) [] nplanes reset (vs ++ [v]) closed' pending' vals'
                  Hskip' Hreset (or_introl Hreset) Hgr' Hvals') as [o' Hrun];
        [simpl in Hfuel; lia|].
      exists o'. rewrite Hrun. cbn [length]. rewrite <- app_assoc.
      now rewrite Nat.add_succ_r.
    + apply Z.eqb_neq in E.
      destruct (IH fuel (S i) (cur ++ [a]) (Some (k - 1)) (k - 1) vs closed
                  pending vals Hskip' eq_refl) as [o' Hrun];
        [destruct Hk as [Hk|Hk]; [now left|right; lia]
        |assumption|assumption|simpl in Hfuel; lia|].
      exists o'. rewrite Hrun. cbn [length].
      now rewrite Nat.add_succ_r.
Qed.
End TifWalk.

(** ** The groups of pages *)

Section Groups.
Context {A : Type}.
Variable reset : Z.

Lemma page_groups_concat (rest : list A) :
  forall (cur : list A) (k : Z) (closed : list (list A)) (pending : list A),
    page_groups reset cur k rest = (closed, pending) ->
    concat closed ++ pending = cur ++ rest.
Proof.
  induction rest as [|x rest IH]; intros cur k closed pending E; simpl in E.
  - injection E as <- <-. simpl. now rewrite app_nil_r.
  - destruct (k - 1 =? 0).
    + destruct (page_groups reset [] reset rest) as [c p] eqn:E'.
      injection E as <- <-. simpl. rewrite <- !app_assoc.
      rewrite (IH _ _ _ _ E'). reflexivity.
    + rewrite (IH _ _ _ _ E), <- app_assoc. reflexivity.
Qed.

(** Counting down from a positive [reset], every closed group holds
    exactly [reset] pages and the pending group holds fewer. *)
Lemma page_groups_sizes (rest : list A) :
  forall (cur : list A) (k : Z) (closed : list (list A)) (pending : list A),
    1 <= k -> Z.of_nat (length cur) = reset - k ->
    page_groups reset cur k rest = (closed, pending) ->
    Forall (fun g => Z.of_nat (length g) = reset) closed /\
    Z.of_nat (length pending) < reset.
Proof.
  induction rest as [|x rest IH]; intros cur k closed pending Hk Hc E;
    simpl in E.
  - injection E as <- <-. split; [constructor|lia].
  - destruct (k - 1 =? 0) eqn:Ek.
    + apply Z.eqb_eq in Ek.
      destruct (page_groups reset [] reset rest) as [c p] eqn:E'.
      injection E as <- <-.
      destruct (IH [] reset c p) as [H1 H2]; [lia|simpl; lia|assumption|].
      split; [|assumption]. constructor; [|assumption].
      rewrite length_app. simpl. lia.
    + apply Z.eqb_neq in Ek.
      apply (IH (cur ++ [x]) (k - 1)); [lia| |assumption].
      rewrite length_app. simpl. lia.
Qed.

(** A count-down that starts at zero or below never closes a group. *)
Lemma page_groups_never (rest : list A) :
  forall (cur : list A) (k : Z),
    k <= 0 -> page_groups reset cur k rest = ([], cur ++ rest).
Proof.
  induction rest as [|x rest IH]; intros cur k Hk; simpl.
  - now rewrite app_nil_r.
  - destruct (k - 1 =? 0) eqn:Ek; [apply Z.eqb_eq in Ek; lia|].
    rewrite IH by lia. now rewrite <- app_assoc.
Qed.
End Groups.

Lemma page_groups_start {A : Type} (nplanes : option Z) (pages : list A)
  (closed : list (list A)) (pending : list A) :
  (forall n, nplanes = Some n -> 0 < n) ->
  page_groups (start_count nplanes) [] (start_count nplanes) pages
  = (closed, pending) ->
  concat closed ++ pending = pages /\
  Forall (fun g => g <> []) closed /\
  (forall n, nplanes = Some n ->
     Forall (fun g => Z.of_nat (length g) = n) closed /\
     Z.of_nat (length pending) < n) /\
  (nplanes = None -> closed = []).
Proof.
  intros Hn E. split; [exact (page_groups_concat _ _ _ _ _ _ E)|].
  destruct nplanes as [n|]; simpl in E.
  - specialize (Hn n eq_refl).
    destruct (page_groups_sizes n pages [] n closed pending) as [H1 H2];
      [lia|simpl; lia|assumption|].
    split; [|split; [|discriminate]].
    + eapply Forall_impl; [|exact H1]. intros g Hg ->. simpl in Hg. lia.
    + intros n' Hn'. injection Hn' as <-. split; assumption.
  - rewrite page_groups_never in E by lia. injection E as <- <-.
    split; [constructor|]. split; [discriminate|reflexivity].
Qed.

(** What [frame_groups] is: the pages cut, in order, into non-empty groups;
    with [nplanes = n] every group but the last holds exactly [n] pages and
    the last holds between 1 and [n]; with [nplanes] unset all pages form one
    group. *)
Lemma frame_groups_spec {A : Type} (nplanes : option Z) (pages : list A) :
  (forall n, nplanes = Some n -> 0 < n) ->
  let groups := frame_groups nplanes pages in
  concat groups = pages /\
  Forall (fun g => g <> []) groups /\
  (forall n, nplanes = Some n ->
     Forall (fun g => Z.of_nat (length g) = n) (removelast groups) /\
     Forall (fun g => Z.of_nat (length g) <= n) groups) /\
  (nplanes = None -> groups = match pages with [] => [] | _ => [pages] end).
Proof.
  intros Hn groups. unfold groups, frame_groups. cbv zeta.
  destruct (page_groups (start_count nplanes) [] (start_count nplanes) pages)
    as [closed pending] eqn:E.
  destruct (page_groups_start nplanes pages closed pending Hn E)
    as (Hcat & Hne & Hsz & Hnone).
  destruct pending as [|p ps].
  - rewrite !app_nil_r in *. repeat split; try assumption.
    + destruct (Hsz n H) as [H1 _]. now apply Forall_removelast.
    + destruct (Hsz n H) as [H1 _]. eapply Forall_impl; [|exact H1].
      simpl. intros; lia.
    + intros Hnp. rewrite (Hnone Hnp) in *. simpl in Hcat. now subst pages.
  - repeat split.
    + rewrite concat_app. simpl. now rewrite app_nil_r.
    + apply Forall_app. split; [assumption|]. constructor; [discriminate|constructor].
    + rewrite removelast_last. now destruct (Hsz n H).
    + destruct (Hsz n H) as [H1 H2]. apply Forall_app. split.
      * eapply Forall_impl; [|exact H1]. simpl. intros; lia.
      * constructor; [lia|constructor].
    + intros Hnp. rewrite (Hnone Hnp) in *. simpl in *. now subst pages.
Qed.

(** ** multitifReader in closed form *)

Lemma Forall_concat_inv {A : Type} (P : A -> Prop) (ls : list (list A)) :
  Forall P (concat ls) -> Forall (Forall P) ls.
Proof.
  induction ls as [|l ls IH]; simpl; intros H; [constructor|].
  apply Forall_app in H. destruct H as [H1 H2].
  constructor; [assumption|now apply IH].
Qed.

(** For a container whose pages all convert to arrays of one shape (h, w),
    the frames of record [idx] are the groups of [frame_groups], each turned
    into an array by [frame_of_group], with keys [idx*nvals + t]. *)
Lemma multitifReader_frames
  (pilimg : Type) (Image_open : bytes -> result (list pilimg))
  (conversionFcn : pilimg -> result ndarray) (nplanes : option Z)
  (idx : Z) (buf : bytes) (imgs : list pilimg) (pages : list ndarray) (h w : Z) :
  Image_open buf = Ok imgs ->
  Forall2 (fun pg a => conversionFcn pg = Ok a) imgs pages ->
  Forall (page_ok h w) pages ->
  (forall n, nplanes = Some n -> 0 < n) ->
  let groups := frame_groups nplanes pages in
  multitifReader pilimg Image_open conversionFcn nplanes (idx, buf)
  = Ok (combine (tif_keys idx (Z.of_nat (length groups)))
                (map (frame_of_group h w) groups)).
Proof.
  intros Hopen Hconv Hpages Hn groups.
  unfold groups, frame_groups. cbv zeta.
  destruct (page_groups (start_count nplanes) [] (start_count nplanes) pages)
    as [closed pending] eqn:E.
  destruct (page_groups_start nplanes pages closed pending Hn E)
    as (Hcat & Hne & Hsz & Hnone).
  assert (Hok : Forall (Forall (page_ok h w)) (closed ++ [pending])).
  { apply Forall_concat_inv. rewrite concat_app. simpl.
    now rewrite app_nil_r, Hcat. }
  apply Forall_app in Hok. destruct Hok as [Hclosed Hpending].
  apply Forall_inv in Hpending. rename Hpending into Hpend.
  assert (Hvals : mapM retAry closed = Ok (map (frame_of_group h w) closed)).
  { apply mapM_ok. rewrite Forall_forall in *. intros g Hg.
    apply retAry_pages; auto. }
  assert (Hk : nplanes = Some (start_count nplanes) \/ start_count nplanes <= 0).
  { destruct nplanes as [n|]; [left; reflexivity|right; simpl; lia]. }
  destruct (page_walk_breaks pilimg conversionFcn nplanes imgs
              (start_count nplanes) imgs pages Hconv (S (length imgs)) 0 []
              (Some (start_count nplanes)) (start_count nplanes) [] closed pending
              (map (frame_of_group h w) closed) eq_refl eq_refl Hk E Hvals
              ltac:(lia)) as [o' Hrun].
  unfold multitifReader. rewrite Hopen. cbn [bind].
  rewrite Hrun. cbn [bind imgArys values app].
  destruct pending as [|p ps].
  - cbn [bind]. now rewrite app_nil_r, length_map.
  - rewrite (retAry_pages h w (p :: ps)) by (auto; discriminate).
    cbn [bind]. rewrite map_app. cbn [map].
    now rewrite !length_app, !length_map.
Qed.

Lemma map_fst_combine {A B : Type} (l : list A) (l' : list B) :
  length l = length l' -> map fst (combine l l') = l.
Proof.
  revert l'. induction l as [|x l IH]; intros [|y l'] H; simpl in *;
    try discriminate; [reflexivity|].
  f_equal. apply IH. now injection H.
Qed.

Lemma map_snd_combine {A B : Type} (l : list A) (l' : list B) :
  length l = length l' -> map snd (combine l l') = l'.
Proof.
  revert l'. induction l as [|x l IH]; intros [|y l'] H; simpl in *;
    try discriminate; [reflexivity|].
  f_equal. apply IH. now injection H.
Qed.

Lemma length_tif_keys (idx : Z) (n : nat) :
  length (tif_keys idx (Z.of_nat n)) = n.
Proof. unfold tif_keys. now rewrite length_map, length_seq, Nat2Z.id. Qed.

(** ** Keys across records *)

Lemma seq_offset (a len : nat) : seq a len = map (Nat.add a) (seq 0 len).
Proof.
  induction len as [|len IH]; [reflexivity|].
  now rewrite !seq_S, map_app, IH.
Qed.

Lemma NoDup_map_injective {A B : Type} (f : A -> B) (l : list A) :
  (forall x y, f x = f y -> x = y) -> NoDup l -> NoDup (map f l).
Proof.
  intros Hinj. induction 1 as [|x l Hx _ IH]; simpl; constructor; [|exact IH].
  intros Hin. apply in_map_iff in Hin. destruct Hin as (y & E & Hy).
  apply Hinj in E. now subst y.
Qed.

(** fromStack numbers the frames of a run densely: with every buffer long
    enough, the keys of the collection are 0, 1, ..., (records * npoints) - 1
    in order, hence pairwise different. *)
Lemma stack_keys_from (dims : list Z) (dt : dtype) (n : Z) (files : list bytes) :
  dims <> [] -> Forall (fun d => 0 < d) dims -> 0 < n ->
  Forall (fun buf : bytes => prod dims * itemsize dt <= Z.of_nat (length buf)) files ->
  let np := stack_npoints (last dims 0) n in
  forall i : Z,
  exists frames : list (Z * ndarray),
    flatMap (toArray dims dt (Some n)) (enumerate_from i files) = Ok frames /\
    map fst frames
    = map (fun j => i * np + Z.of_nat j) (seq 0 (length files * Z.to_nat np)).
Proof.
  intros Hne Hpos Hn Hfiles np.
  pose proof (stack_npoints_pos _ n Hn (last_pos dims Hne Hpos)) as Hnp.
  fold np in Hnp. unfold flatMap.
  induction files as [|buf files IH]; intros i.
  - exists []. split; reflexivity.
  - apply Forall_cons_iff in Hfiles. destruct Hfiles as [Hbuf Hfiles].
    destruct (IH Hfiles (i + 1)) as (frames & E & Hk).
    cbn [enumerate_from mapM].
    rewrite (toArray_frames dims dt n i buf Hne Hpos Hn Hbuf). fold np.
    cbn [bind].
    destruct (mapM (toArray dims dt (Some n)) (enumerate_from (i + 1) files))
      as [ls|e]; cbn [bind] in *; [|discriminate].
    injection E as <-. eexists. split; [reflexivity|].
    cbn [concat length Nat.mul]. rewrite map_app, Hk, map_map.
    rewrite seq_app, map_app. cbn [Nat.add]. f_equal.
    rewrite (seq_offset (Z.to_nat np)), map_map.
    apply map_ext. intros j. lia.
Qed.

Lemma stack_keys_unique
  (dims : list Z) (dt : dtype) (n : Z) (files : list bytes) (imgs : Images) :
  dims <> [] -> Forall (fun d => 0 < d) dims ->
  Forall (fun buf : bytes => prod dims * itemsize dt <= Z.of_nat (length buf)) files ->
  fromStack files (Some dims) dt (Some n) = Ok imgs ->
  exists frames, rdd imgs = Ok frames /\ NoDup (map fst frames).
Proof.
  intros Hne Hpos Hfiles E. unfold fromStack, check_nplanes in E.
  destruct dims as [|d ds]; [congruence|].
  destruct (n <=? 0) eqn:En; [discriminate|]. apply Z.leb_gt in En.
  injection E as <-. cbn [rdd reader_read readerRdd].
  destruct (stack_keys_from (d :: ds) dt n files Hne Hpos En Hfiles 0)
    as (frames & -> & Hk).
  exists frames. split; [reflexivity|]. rewrite Hk.
  apply NoDup_map_injective; [|apply seq_NoDup].
  intros x y Hxy. lia.
Qed.

(** With one [nvals] for all records the keys of different records never
    meet; the multiplier has to be shared for that. *)
Lemma tif_keys_disjoint (i j nvals k : Z) :
  i <> j -> In k (tif_keys i nvals) -> ~ In k (tif_keys j nvals).
Proof.
  unfold tif_keys. intros Hij Hi Hj.
  apply in_map_iff in Hi. destruct Hi as (t & <- & Ht).
  apply in_map_iff in Hj. destruct Hj as (t' & E & Ht').
  apply in_seq in Ht. apply in_seq in Ht'.
  assert (0 < nvals) by lia.
  rewrite Z2Nat.inj_lt in * by lia. nia.
Qed.

(** C1, on the code. Two tif records of 5 and 3 pages (of one 2-D shape) read
    with nplanes = 2 give nvals = 3 and nvals = 2: record 0 gets the keys 0,
    1, 2 and record 1 the keys 1*2 + 0 = 2 and 3, so key 2 is emitted twice
    and the keys of the collection are not unique. *)
Theorem multipage_keys_collide
  (pilimg : Type) (array pil_to_array : pilimg -> result ndarray)
  (Image : PILImage pilimg) (buf0 buf1 : bytes) (imgs0 imgs1 : list pilimg)
  (pages0 pages1 : list ndarray) (h w : Z) :
  PIL_open Image buf0 = Ok imgs0 ->
  PIL_open Image buf1 = Ok imgs1 ->
  let conversionFcn := if PILLOW_VERSION Image then array else pil_to_array in
  Forall2 (fun pg a => conversionFcn pg = Ok a) imgs0 pages0 ->
  Forall2 (fun pg a => conversionFcn pg = Ok a) imgs1 pages1 ->
  Forall (page_ok h w) pages0 -> Forall (page_ok h w) pages1 ->
  length pages0 = 5%nat -> length pages1 = 3%nat ->
  exists (imgs : Images) (frames : list (Z * ndarray)),
    fromTif pilimg array pil_to_array (Some Image) [buf0; buf1] (Some 2) = Ok imgs /\
    rdd imgs = Ok frames /\
    map fst frames = [0; 1; 2; 2; 3] /\
    ~ NoDup (map fst frames).
Proof.
  intros Ho0 Ho1 conversionFcn Hc0 Hc1 Hp0 Hp1 Hl0 Hl1.
  assert (Hn : forall n, Some 2 = Some n -> 0 < n)
    by (intros n E; injection E as <-; lia).
  eexists. eexists. split; [reflexivity|].
  cbn [rdd reader_read readerRdd enumerate_from]. unfold flatMap. cbn [mapM].
  fold conversionFcn.
  rewrite (multitifReader_frames pilimg (PIL_open Image) conversionFcn (Some 2)
             0 buf0 imgs0 pages0 h w Ho0 Hc0 Hp0 Hn).
  rewrite (multitifReader_frames pilimg (PIL_open Image) conversionFcn (Some 2)
             (0 + 1) buf1 imgs1 pages1 h w Ho1 Hc1 Hp1 Hn).
  destruct pages0 as [|a0 [|a1 [|a2 [|a3 [|a4 [|? ?]]]]]]; try discriminate Hl0.
  destruct pages1 as [|b0 [|b1 [|b2 [|? ?]]]]; try discriminate Hl1.
  split; [reflexivity|]. split; [reflexivity|].
  cbn [map fst]. intros H.
  inversion H as [|? ? _ H1]; subst. inversion H1 as [|? ? _ H2]; subst.
  inversion H2 as [|? ? Hin _]; subst. apply Hin. now left.
Qed.

Lemma multipage_keys_collide_witness :
  exists (imgs : Images) (frames : list (Z * ndarray)),
    fromTif Byte.byte toy_page toy_page (Some toy_PIL) [zeros 5; zeros 3] (Some 2)
    = Ok imgs /\
    rdd imgs = Ok frames /\
    map fst frames = [0; 1; 2; 2; 3] /\
    ~ NoDup (map fst frames).
Proof.
  apply (multipage_keys_collide Byte.byte toy_page toy_page toy_PIL
           (zeros 5) (zeros 3) (zeros 5) (zeros 3)
           (map (fun b => mkArray [1; 1] [[b]]) (zeros 5))
           (map (fun b => mkArray [1; 1] [[b]]) (zeros 3)) 1 1);
    first [reflexivity | (repeat constructor)].
Defined.

(** * Further properties of the loaders *)

(** ** fromStack over a whole run *)

Lemma toArray_short (dims : list Z) (dt : dtype) (nplanes : option Z)
  (idx : Z) (buf : bytes) :
  Forall (fun d => 0 < d) dims ->
  Z.of_nat (length buf) < prod dims * itemsize dt ->
  toArray dims dt nplanes (idx, buf)
  = Raise (ValueError "buffer is smaller than requested size").
Proof.
  intros Hpos Hlt. unfold toArray.
  pose proof (decode_short dims dt buf Hpos Hlt) as Hd.
  destruct (frombuffer buf dt (prod dims)) as [flat|e]; cbn [bind] in *.
  - rewrite Hd. reflexivity.
  - now inversion Hd.
Qed.

Lemma toArray_long (dims : list Z) (dt : dtype) (nplanes : option Z)
  (idx : Z) (buf : bytes) :
  dims <> [] -> Forall (fun d => 0 < d) dims ->
  (forall n, nplanes = Some n -> 0 < n) ->
  prod dims * itemsize dt <= Z.of_nat (length buf) ->
  exists frames, toArray dims dt nplanes (idx, buf) = Ok frames.
Proof.
  intros Hne Hpos Hn Hle. destruct nplanes as [n|].
  - eexists. apply toArray_frames; auto.
  - eexists. apply toArray_whole; auto.
Qed.

(** What a successful [fromStack] says about its arguments. *)
Lemma fromStack_ok (files : list bytes) (dims : list Z) (dt : dtype)
  (nplanes : option Z) (imgs : Images) :
  fromStack files (Some dims) dt nplanes = Ok imgs ->
  dims <> [] /\ (forall n, nplanes = Some n -> 0 < n) /\
  rdd imgs = flatMap (toArray dims dt nplanes) (enumerate_from 0 files) /\
  img_dims imgs
  = Some (match nplanes with
          | Some n => removelast dims ++ [n]
          | None => dims
          end).
Proof.
  intros E. unfold fromStack, check_nplanes in E.
  destruct dims as [|d ds]; [discriminate|].
  split; [discriminate|].
  destruct nplanes as [n|].
  - destruct (n <=? 0) eqn:En; [discriminate|]. apply Z.leb_gt in En.
    cbn [bind] in E. injection E as <-. cbn [rdd img_dims reader_read readerRdd].
    split; [intros n' Hn'; injection Hn' as <-; exact En|].
    split; [reflexivity|].
    destruct (n =? 0) eqn:E0; [apply Z.eqb_eq in E0; lia|reflexivity].
  - cbn [bind] in E. injection E as <-.
    split; [discriminate|]. split; reflexivity.
Qed.

(** X1. With nplanes set and every buffer long enough, the keys of the whole
    collection are 0, 1, 2, ... (records * npoints) - 1 in this order: they
    are dense, increase along the records and never repeat. *)
Theorem stack_keys_dense
  (dims : list Z) (dt : dtype) (n : Z) (files : list bytes) (imgs : Images) :
  Forall (fun d => 0 < d) dims ->
  Forall (fun buf : bytes => prod dims * itemsize dt <= Z.of_nat (length buf)) files ->
  fromStack files (Some dims) dt (Some n) = Ok imgs ->
  exists frames : list (Z * ndarray),
    rdd imgs = Ok frames /\
    map fst frames
    = map Z.of_nat
          (seq 0 (length files * Z.to_nat (stack_npoints (last dims 0) n))).
Proof.
  intros Hpos Hfiles E.
  destruct (fromStack_ok _ _ _ _ _ E) as (Hne & Hn & Hrdd & _).
  specialize (Hn n eq_refl).
  destruct (stack_keys_from dims dt n files Hne Hpos Hn Hfiles 0)
    as (frames & Hf & Hk).
  exists frames. rewrite Hrdd. split; [exact Hf|].
  rewrite Hk. apply map_ext. intros j. lia.
Qed.

Lemma stack_keys_dense_witness :
  exists frames : list (Z * ndarray),
    flatMap (toArray [2; 2; 5] int8 (Some 2)) (enumerate_from 0 [zeros 20; zeros 21])
    = Ok frames /\
    map fst frames = [0; 1; 2; 3; 4; 5].
Proof.
  destruct (stack_keys_dense [2; 2; 5] int8 2 [zeros 20; zeros 21] _
              ltac:(repeat constructor; lia)
              ltac:(repeat constructor; vm_compute; discriminate) eq_refl)
    as (frames & Hf & Hk).
  exists frames. split; [exact Hf|exact Hk].
Defined.

Lemma flatMap_whole (dims : list Z) (dt : dtype) (files : list bytes) :
  Forall (fun d => 0 < d) dims ->
  Forall (fun buf : bytes => prod dims * itemsize dt <= Z.of_nat (length buf)) files ->
  forall i : Z,
    flatMap (toArray dims dt None) (enumerate_from i files)
    = Ok (enumerate_from i (map (decoded dims dt) files)).
Proof.
  intros Hpos. unfold flatMap.
  induction files as [|buf files IH]; intros Hfiles i; [reflexivity|].
  apply Forall_cons_iff in Hfiles. destruct Hfiles as [Hbuf Hfiles].
  cbn [enumerate_from mapM map]. rewrite (toArray_whole dims dt i buf Hpos Hbuf).
  cbn [bind]. specialize (IH Hfiles (i + 1)).
  destruct (mapM (toArray dims dt None) (enumerate_from (i + 1) files))
    as [ls|e]; cbn [bind] in *; [|discriminate].
  injection IH as IH. cbn [concat app]. now rewrite IH.
Qed.

Lemma length_enumerate_from {A : Type} (l : list A) (i : Z) :
  length (enumerate_from i l) = length l.
Proof.
  revert i. induction l as [|x l IH]; intros i; simpl; [reflexivity|].
  now rewrite IH.
Qed.

(** X2. With nplanes unset and every buffer long enough, the collection
    holds exactly one frame per record, in order: the record's decoded array,
    of shape dims, under the record's position; and the reported frame count
    is the number of frames. *)
Theorem stack_unsplit_collection
  (dims : list Z) (dt : dtype) (files : list bytes) (imgs : Images) :
  Forall (fun d => 0 < d) dims ->
  Forall (fun buf : bytes => prod dims * itemsize dt <= Z.of_nat (length buf)) files ->
  fromStack files (Some dims) dt None = Ok imgs ->
  let frames := enumerate_from 0 (map (decoded dims dt) files) in
  rdd imgs = Ok frames /\
  nimages imgs = Some (Z.of_nat (length frames)) /\
  Forall (fun f => Some (shape (snd f)) = img_dims imgs) frames.
Proof.
  intros Hpos Hfiles E frames.
  destruct (fromStack_ok _ _ _ _ _ E) as (Hne & _ & Hrdd & Hdims).
  split; [rewrite Hrdd; now apply flatMap_whole|].
  split.
  - unfold frames. rewrite length_enumerate_from, length_map.
    unfold fromStack in E. destruct dims; [congruence|].
    cbn [check_nplanes bind] in E. injection E as <-. reflexivity.
  - rewrite Hdims. unfold frames. generalize 0 as i. clear.
    induction files as [|buf files IH]; intros i; simpl; constructor.
    + reflexivity.
    + apply IH.
Qed.

Lemma stack_unsplit_collection_witness :
  rdd (mkImages (flatMap (toArray [2; 2] int8 None)
                         (enumerate_from 0 [zeros 4; zeros 5]))
                (Some 2) (Some [2; 2]) (Some int8))
  = Ok (enumerate_from 0 (map (decoded [2; 2] int8) [zeros 4; zeros 5])).
Proof.
  apply (stack_unsplit_collection [2; 2] int8 [zeros 4; zeros 5] _
           ltac:(repeat constructor; lia)
           ltac:(repeat constructor; vm_compute; discriminate) eq_refl).
Defined.

Lemma mapM_stack_short (dims : list Z) (dt : dtype) (nplanes : option Z)
  (files : list bytes) :
  dims <> [] -> Forall (fun d => 0 < d) dims ->
  (forall n, nplanes = Some n -> 0 < n) ->
  Exists (fun buf : bytes => Z.of_nat (length buf) < prod dims * itemsize dt) files ->
  forall i : Z,
    mapM (toArray dims dt nplanes) (enumerate_from i files)
    = Raise (ValueError "buffer is smaller than requested size").
Proof.
  intros Hne Hpos Hn.
  induction files as [|buf files IH]; intros Hex i; [inversion Hex|].
  cbn [enumerate_from mapM].
  destruct (Z_lt_le_dec (Z.of_nat (length buf)) (prod dims * itemsize dt))
    as [Hlt|Hle].
  - now rewrite (toArray_short dims dt nplanes i buf Hpos Hlt).
  - destruct (toArray_long dims dt nplanes i buf Hne Hpos Hn Hle) as [fr ->].
    cbn [bind]. rewrite IH; [reflexivity|].
    apply Exists_cons in Hex. destruct Hex as [Hlt|Hex]; [lia|exact Hex].
Qed.

(** X3. One buffer that is too short fails the whole collection: with
    positive dims whose byte size prod(dims)*itemsize is below 2^63,
    although fromStack itself returned, the collection cannot be evaluated,
    with or without nplanes; it yields no frames, not even those of the
    records whose buffers are long enough. *)
Theorem stack_short_buffer_aborts
  (dims : list Z) (dt : dtype) (nplanes : option Z) (files : list bytes)
  (imgs : Images) :
  Forall (fun d => 0 < d) dims ->
  prod dims * itemsize dt < 2 ^ 63 ->
  Exists (fun buf : bytes => Z.of_nat (length buf) < prod dims * itemsize dt) files ->
  fromStack files (Some dims) dt nplanes = Ok imgs ->
  forall frames : list (Z * ndarray), rdd imgs <> Ok frames.
Proof.
  intros Hpos _ Hex E frames.
  destruct (fromStack_ok _ _ _ _ _ E) as (Hne & Hn & -> & _).
  unfold flatMap.
  rewrite (mapM_stack_short dims dt nplanes files Hne Hpos Hn Hex).
  discriminate.
Qed.

Lemma stack_short_buffer_aborts_witness :
  Z.of_nat (length (zeros 19)) < prod [2; 2; 5] * itemsize int8 /\
  ~ exists frames : list (Z * ndarray),
      rdd (mkImages (flatMap (toArray [2; 2; 5] int8 (Some 2))
                             (enumerate_from 0 [zeros 20; zeros 19; zeros 20]))
                    None (Some (removelast [2; 2; 5] ++ [2])) (Some int8))
      = Ok frames.
Proof.
  split; [reflexivity|]. intros [frames E]. revert E.
  apply (stack_short_buffer_aborts [2; 2; 5] int8 (Some 2)
           [zeros 20; zeros 19; zeros 20] _
           ltac:(repeat constructor; lia)
           ltac:(reflexivity)
           ltac:(apply Exists_cons_tl, Exists_cons_hd; vm_compute; reflexivity)
           eq_refl).
Defined.

(** ** The frames of a stack record against the reported dims *)

Lemma group_frame_shape (dims : list Z) (dt : dtype) (buf : bytes)
  (idx npoints n : Z) (t : nat) :
  0 < n -> 0 <= last dims 0 ->
  shape (snd (group_frame idx npoints n (decoded dims dt buf) t))
  = removelast dims
    ++ [Z.min ((Z.of_nat t + 1) * n) (last dims 0)
        - Z.min (Z.of_nat t * n) (last dims 0)].
Proof.
  intros Hn HN. unfold group_frame. cbn [snd].
  rewrite slice_last_shape by nia. reflexivity.
Qed.

(** X4. fromStack with nplanes = n reports the dims dims[:-1] + [n]. Of the
    frames of a record, all but the last have exactly this shape; the last
    one holds the remaining total - (npoints-1)*n planes, and has the
    reported shape exactly when n divides the length of the last axis. *)
Theorem stack_reported_dims
  (dims : list Z) (dt : dtype) (n idx : Z) (buf : bytes) (files : list bytes)
  (imgs : Images) :
  Forall (fun d => 0 < d) dims ->
  prod dims * itemsize dt <= Z.of_nat (length buf) ->
  fromStack files (Some dims) dt (Some n) = Ok imgs ->
  img_dims imgs = Some (removelast dims ++ [n]) /\
  exists (front : list (Z * ndarray)) (key : Z) (lastf : ndarray),
    toArray dims dt (Some n) (idx, buf) = Ok (front ++ [(key, lastf)]) /\
    Forall (fun f => shape (snd f) = removelast dims ++ [n]) front /\
    shape lastf
    = removelast dims
      ++ [last dims 0 - (stack_npoints (last dims 0) n - 1) * n] /\
    (shape lastf = removelast dims ++ [n] <-> last dims 0 mod n = 0).
Proof.
  intros Hpos Hlen E.
  destruct (fromStack_ok _ _ _ _ _ E) as (Hne & Hn & _ & Hdims).
  split; [exact Hdims|].
  specialize (Hn n eq_refl).
  pose proof (last_pos dims Hne Hpos) as HN.
  rewrite toArray_frames by assumption.
  rewrite stack_npoints_ceil by assumption.
  set (N := last dims 0) in *.
  assert (Hq : 0 <= (N - 1) / n) by (apply Z.div_pos; lia).
  pose proof (Z.div_mod (N - 1) n ltac:(lia)) as Hd.
  pose proof (Z.mod_pos_bound (N - 1) n Hn) as Hb.
  set (q := (N - 1) / n) in *.
  replace (Z.to_nat (q + 1)) with (S (Z.to_nat q)) by lia.
  rewrite seq_S, map_app. cbn [map Nat.add].
  assert (Hlast : shape (snd (group_frame idx (q + 1) n (decoded dims dt buf)
                                (Z.to_nat q)))
                  = removelast dims ++ [N - q * n]).
  { rewrite group_frame_shape by (fold N; lia). fold N.
    rewrite Z2Nat.id by lia. do 2 f_equal. nia. }
  exists (map (group_frame idx (q + 1) n (decoded dims dt buf)) (seq 0 (Z.to_nat q))),
         (idx * (q + 1) + Z.of_nat (Z.to_nat q)),
         (snd (group_frame idx (q + 1) n (decoded dims dt buf) (Z.to_nat q))).
  split; [reflexivity|]. split; [|split].
  - apply Forall_forall. intros f Hf.
    apply in_map_iff in Hf. destruct Hf as (t & <- & Ht).
    apply in_seq in Ht. rewrite group_frame_shape by (fold N; lia). fold N.
    do 2 f_equal. nia.
  - rewrite Hlast. do 2 f_equal. lia.
  - rewrite Hlast. split.
    + intros Heq. apply app_inv_head in Heq. injection Heq as Heq.
      replace N with ((q + 1) * n) by lia. apply Z.mod_mul. lia.
    + intros Hmod. destruct (div_pred_multiple N n Hn Hmod) as [_ Hmul].
      fold q in Hmul. do 2 f_equal. lia.
Qed.

Lemma stack_reported_dims_witness :
  Some (removelast [2; 2; 5] ++ [2]) = Some (removelast [2; 2; 5] ++ [2]) /\
  exists (front : list (Z * ndarray)) (key : Z) (lastf : ndarray),
    toArray [2; 2; 5] int8 (Some 2) (0, zeros 20) = Ok (front ++ [(key, lastf)]) /\
    Forall (fun f => shape (snd f) = removelast [2; 2; 5] ++ [2]) front /\
    shape lastf = removelast [2; 2; 5] ++ [5 - (stack_npoints 5 2 - 1) * 2] /\
    (shape lastf = removelast [2; 2; 5] ++ [2] <-> 5 mod 2 = 0).
Proof.
  apply (stack_reported_dims [2; 2; 5] int8 2 0 (zeros 20) [zeros 20] _
           ltac:(repeat constructor; lia)
           ltac:(vm_compute; discriminate) eq_refl).
Defined.

(** ** Bytes in, bytes out *)

Lemma concat_items (c sz : nat) (buf : bytes) :
  concat (items c sz buf) = firstn (c * sz) buf.
Proof.
  revert buf. induction c as [|c IH]; intros buf; simpl; [reflexivity|].
  rewrite IH. apply firstn_add.
Qed.

(** X5. Decoding a record loses, repeats and reorders nothing: whatever the
    nplanes, the items of the frames of a record, laid end to end in the
    order the frames are yielded, are exactly the first prod(dims)*itemsize
    bytes of the buffer. *)
Theorem stack_bytes_roundtrip
  (dims : list Z) (dt : dtype) (nplanes : option Z) (idx : Z) (buf : bytes) :
  dims <> [] -> Forall (fun d => 0 < d) dims ->
  (forall n, nplanes = Some n -> 0 < n) ->
  prod dims * itemsize dt <= Z.of_nat (length buf) ->
  exists frames : list (Z * ndarray),
    toArray dims dt nplanes (idx, buf) = Ok frames /\
    concat (concat (map (fun f => data (snd f)) frames))
    = firstn (Z.to_nat (prod dims * itemsize dt)) buf.
Proof.
  intros Hne Hpos Hn Hlen.
  assert (Hdata : concat (data (decoded dims dt buf))
                  = firstn (Z.to_nat (prod dims * itemsize dt)) buf).
  { cbn [decoded data]. rewrite concat_items. f_equal.
    pose proof (prod_pos dims Hpos).
    assert (0 < itemsize dt) by (destruct dt; simpl; lia).
    rewrite Z2Nat.inj_mul by lia. reflexivity. }
  destruct nplanes as [n|].
  - eexists. split; [apply toArray_frames; auto|].
    rewrite map_map.
    rewrite (frames_cover dims dt n idx buf Hne Hpos (Hn n eq_refl)).
    exact Hdata.
  - eexists. split; [apply toArray_whole; auto|].
    cbn [map snd concat]. rewrite app_nil_r. exact Hdata.
Qed.

Lemma stack_bytes_roundtrip_witness :
  exists frames : list (Z * ndarray),
    toArray [2; 2; 5] int16 (Some 2) (1, zeros 43) = Ok frames /\
    concat (concat (map (fun f => data (snd f)) frames))
    = firstn (Z.to_nat (prod [2; 2; 5] * itemsize int16)) (zeros 43).
Proof.
  apply (stack_bytes_roundtrip [2; 2; 5] int16 (Some 2) 1 (zeros 43)).
  - discriminate.
  - repeat constructor; lia.
  - intros n E. injection E as <-. lia.
  - vm_compute. discriminate.
Defined.

(** ** How many frames a tif record gives *)

Lemma stack_npoints_nonneg (total n : Z) :
  0 < n -> 0 <= total -> 0 <= stack_npoints total n.
Proof.
  intros Hn Ht. rewrite stack_npoints_ceil by assumption.
  assert (-1 <= (total - 1) / n) by (apply Z.div_le_lower_bound; lia). lia.
Qed.

Lemma length_concat_uniform {A : Type} (n : Z) (ls : list (list A)) :
  Forall (fun g => Z.of_nat (length g) = n) ls ->
  Z.of_nat (length (concat ls)) = n * Z.of_nat (length ls).
Proof.
  induction 1 as [|g ls Hg _ IH]; simpl; [lia|].
  rewrite length_app. lia.
Qed.

Lemma length_frame_groups {A : Type} (n : Z) (pages : list A) :
  0 < n ->
  Z.of_nat (length (frame_groups (Some n) pages))
  = stack_npoints (Z.of_nat (length pages)) n.
Proof.
  intros Hn. unfold frame_groups. cbv zeta. cbn [start_count].
  destruct (page_groups n [] n pages) as [closed pending] eqn:E.
  pose proof (page_groups_concat n pages [] n closed pending E) as Hcat.
  destruct (page_groups_sizes n pages [] n closed pending) as [Hsz Hp];
    [lia|simpl; lia|exact E|].
  pose proof (length_concat_uniform n closed Hsz) as Hlen.
  assert (Hp' : Z.of_nat (length pages)
                = n * Z.of_nat (length closed) + Z.of_nat (length pending)).
  { simpl in Hcat. rewrite <- Hcat, length_app. lia. }
  assert (Hdiv : Z.of_nat (length pages) / n = Z.of_nat (length closed)).
  { symmetry. apply Z.div_unique with (r := Z.of_nat (length pending)); lia. }
  assert (Hmod : Z.of_nat (length pages) mod n = Z.of_nat (length pending)).
  { symmetry. apply Z.mod_unique with (q := Z.of_nat (length closed)); lia. }
  unfold stack_npoints. rewrite Hdiv, Hmod, length_app.
  destruct pending as [|x pending]; simpl length.
  - rewrite Z.eqb_refl. simpl. lia.
  - destruct (Z.of_nat (S (length pending)) =? 0) eqn:E0;
      [apply Z.eqb_eq in E0; lia|]. simpl negb. lia.
Qed.

Lemma multitifReader_count
  (pilimg : Type) (Image_open : bytes -> result (list pilimg))
  (conversionFcn : pilimg -> result ndarray) (n idx : Z) (buf : bytes)
  (imgs : list pilimg) (pages : list ndarray) (h w : Z) :
  Image_open buf = Ok imgs ->
  Forall2 (fun pg a => conversionFcn pg = Ok a) imgs pages ->
  Forall (page_ok h w) pages ->
  0 < n ->
  let nvals := stack_npoints (Z.of_nat (length pages)) n in
  exists frames : list (Z * ndarray),
    multitifReader pilimg Image_open conversionFcn (Some n) (idx, buf) = Ok frames /\
    Z.of_nat (length frames) = nvals /\
    map fst frames = map (fun t => idx * nvals + Z.of_nat t) (seq 0 (Z.to_nat nvals)).
Proof.
  intros Hopen Hconv Hpages Hn nvals.
  assert (Hn' : forall m, Some n = Some m -> 0 < m)
    by (intros m Em; injection Em as <-; exact Hn).
  eexists. split; [eapply multitifReader_frames; eassumption|].
  rewrite length_frame_groups by assumption. fold nvals.
  assert (Hnv : 0 <= nvals).
  { unfold nvals. rewrite <- length_frame_groups by assumption. lia. }
  assert (Hl : length (map (frame_of_group h w) (frame_groups (Some n) pages))
               = Z.to_nat nvals).
  { rewrite length_map. unfold nvals.
    rewrite <- length_frame_groups by assumption. lia. }
  split.
  - rewrite length_combine, Hl. unfold tif_keys.
    rewrite length_map, length_seq. lia.
  - rewrite map_fst_combine; [reflexivity|].
    unfold tif_keys. now rewrite length_map, length_seq, Hl.
Qed.

(** X6. A tif record of p pages read with nplanes = n gives p/n frames, plus
    one when p mod n is not zero (the count fromStack computes from dims),
    keyed idx*nvals + 0 .. idx*nvals + nvals-1 with nvals this count. *)
Theorem multipage_frame_count
  (pilimg : Type) (Image_open : bytes -> result (list pilimg))
  (conversionFcn : pilimg -> result ndarray) (n idx : Z) (buf : bytes)
  (imgs : list pilimg) (pages : list ndarray) (h w : Z) :
  Image_open buf = Ok imgs ->
  Forall2 (fun pg a => conversionFcn pg = Ok a) imgs pages ->
  Forall (page_ok h w) pages ->
  0 < n ->
  let nvals := stack_npoints (Z.of_nat (length pages)) n in
  exists frames : list (Z * ndarray),
    multitifReader pilimg Image_open conversionFcn (Some n) (idx, buf) = Ok frames /\
    Z.of_nat (length frames) = nvals /\
    map fst frames = map (fun t => idx * nvals + Z.of_nat t) (seq 0 (Z.to_nat nvals)).
Proof.
  intros Hopen Hconv Hpages Hn.
  exact (multitifReader_count pilimg Image_open conversionFcn n idx buf imgs
           pages h w Hopen Hconv Hpages Hn).
Qed.

Lemma multipage_frame_count_witness :
  exists frames : list (Z * ndarray),
    multitifReader Byte.byte toy_open toy_page (Some 3) (2, zeros 7) = Ok frames /\
    Z.of_nat (length frames) = stack_npoints 7 3 /\
    map fst frames
    = map (fun t => 2 * stack_npoints 7 3 + Z.of_nat t)
          (seq 0 (Z.to_nat (stack_npoints 7 3))).
Proof.
  apply (multipage_frame_count Byte.byte toy_open toy_page 3 2 (zeros 7)
           (zeros 7) (map (fun b => mkArray [1; 1] [[b]]) (zeros 7)) 1 1 eq_refl);
    first [lia | (repeat constructor)].
Defined.

Lemma tif_keys_from (pilimg : Type) (Image_open : bytes -> result (list pilimg))
  (conversionFcn : pilimg -> result ndarray) (n : Z) (p : nat)
  (files : list bytes) :
  0 < n ->
  Forall (fun buf => exists pages,
            reads_pages pilimg Image_open conversionFcn buf pages /\
            length pages = p) files ->
  let nv := stack_npoints (Z.of_nat p) n in
  forall i : Z,
  exists frames : list (Z * ndarray),
    flatMap (multitifReader pilimg Image_open conversionFcn (Some n))
            (enumerate_from i files) = Ok frames /\
    map fst frames
    = map (fun j => i * nv + Z.of_nat j) (seq 0 (length files * Z.to_nat nv)).
Proof.
  intros Hn Hfiles nv. unfold flatMap.
  induction files as [|buf files IH]; intros i.
  - exists []. split; reflexivity.
  - apply Forall_cons_iff in Hfiles. destruct Hfiles as [Hbuf Hfiles].
    destruct Hbuf as (pages & (imgs & h & w & Ho & Hc & Hp) & Hlen).
    destruct (multitifReader_count pilimg Image_open conversionFcn n i buf
                imgs pages h w Ho Hc Hp Hn) as (fr & Hfr & _ & Hk).
    destruct (IH Hfiles (i + 1)) as (frames & E & Hks).
    cbn [enumerate_from mapM]. rewrite Hfr. cbn [bind].
    destruct (mapM (multitifReader pilimg Image_open conversionFcn (Some n))
                (enumerate_from (i + 1) files)) as [ls|e]; cbn [bind] in *;
      [|discriminate].
    injection E as <-. eexists. split; [reflexivity|].
    cbn [concat length Nat.mul]. rewrite map_app, Hk, Hks, Hlen. fold nv.
    rewrite seq_app, map_app. cbn [Nat.add]. f_equal.
    rewrite (seq_offset (Z.to_nat nv)), map_map.
    assert (0 <= nv) by (apply stack_npoints_nonneg; lia).
    apply map_ext. intros j. lia.
Qed.

Lemma fromTif_ok (pilimg : Type) (array pil_to_array : pilimg -> result ndarray)
  (Image : PILImage pilimg) (files : list bytes) (nplanes : option Z)
  (imgs : Images) :
  fromTif pilimg array pil_to_array (Some Image) files nplanes = Ok imgs ->
  (forall n, nplanes = Some n -> 0 < n) /\
  rdd imgs
  = flatMap (multitifReader pilimg (PIL_open Image)
               (if PILLOW_VERSION Image then array else pil_to_array) nplanes)
            (enumerate_from 0 files) /\
  nimages imgs
  = match nplanes with None => Some (Z.of_nat (length files)) | Some _ => None end.
Proof.
  intros E. unfold fromTif, check_nplanes in E. destruct nplanes as [n|].
  - destruct (n <=? 0) eqn:En; [discriminate|]. apply Z.leb_gt in En.
    cbn [bind] in E. injection E as <-.
    split; [intros n' Hn'; injection Hn' as <-; exact En|].
    split; reflexivity.
  - cbn [bind] in E. injection E as <-.
    split; [discriminate|]. split; reflexivity.
Qed.

Lemma toy_reads_pages (buf : bytes) :
  reads_pages Byte.byte toy_open toy_page buf
    (map (fun b => mkArray [1; 1] [[b]]) buf).
Proof.
  exists buf, 1, 1. split; [reflexivity|]. split.
  - induction buf as [|b buf IH]; constructor; [reflexivity|exact IH].
  - induction buf as [|b buf IH]; constructor; [split; reflexivity|exact IH].
Qed.

(** ** fromTif with nplanes unset *)

Lemma multitifReader_unsplit
  (pilimg : Type) (Image_open : bytes -> result (list pilimg))
  (conversionFcn : pilimg -> result ndarray) (idx : Z) (buf : bytes)
  (imgs : list pilimg) (pages : list ndarray) (h w : Z) :
  Image_open buf = Ok imgs ->
  Forall2 (fun pg a => conversionFcn pg = Ok a) imgs pages ->
  Forall (page_ok h w) pages ->
  pages <> [] ->
  multitifReader pilimg Image_open conversionFcn None (idx, buf)
  = Ok [(idx, frame_of_group h w pages)].
Proof.
  intros Ho Hc Hp Hne.
  assert (Hn : forall n, @None Z = Some n -> 0 < n) by discriminate.
  rewrite (multitifReader_frames pilimg Image_open conversionFcn None idx buf
             imgs pages h w Ho Hc Hp Hn).
  destruct (frame_groups_spec None pages Hn) as (_ & _ & _ & Hg).
  rewrite (Hg eq_refl). destruct pages as [|a pages]; [congruence|].
  cbn [length map]. unfold tif_keys.
  change (Z.to_nat (Z.of_nat 1)) with 1%nat. cbn [seq map combine].
  change (Z.of_nat 1) with 1. change (Z.of_nat 0) with 0.
  replace (idx * 1 + 0) with idx by lia. reflexivity.
Qed.

(** ** Pages in, pages out *)

Lemma data_frame_of_group (h w : Z) (g : list ndarray) :
  data (frame_of_group h w g) = concat (map data g).
Proof.
  destruct g as [|a [|b g]]; try reflexivity.
  simpl. now rewrite app_nil_r.
Qed.

(** ** Exceptions inside the page walk *)

Lemma retAry_not_eof (g : list ndarray) (m : string) :
  retAry g <> Raise (EOFError m).
Proof.
  unfold retAry, dstack, concatenate2.
  destruct (1 <? length g)%nat.
  - destruct (map atleast_3d g) as [|a rest]; [discriminate|].
    destruct (forallb _ rest); discriminate.
  - destruct g; discriminate.
Qed.

Section WalkSteps.
Variable pilimg : Type.
Variable conversionFcn : pilimg -> result ndarray.
Variable nplanes : option Z.

(** A pass that goes on has read one more page, which exists; a pass that
    breaks leaves the state as it found it. *)
Lemma page_step_cases (multipage : list pilimg) (st : tif_state) :
  match page_step pilimg conversionFcn nplanes multipage st with
  | Continue st' =>
      pageIdx st' = S (pageIdx st) /\ (pageIdx st < length multipage)%nat
  | Break st' => st' = st
  | Fail _ => True
  end.
Proof.
  unfold page_step, seek.
  destruct (nth_error multipage (pageIdx st)) as [pg|] eqn:Hnth; cbn [try_];
    [|reflexivity].
  assert (Hlt : (pageIdx st < length multipage)%nat)
    by (apply nth_error_Some; congruence).
  destruct (conversionFcn pg) as [a|e]; cbn [try_];
    [|destruct e; auto].
  destruct (npagesLeft st) as [k|]; [|exact I].
  destruct (k - 1 =? 0); [|split; [reflexivity|exact Hlt]].
  destruct (retAry (imgArys st ++ [a])) as [r|e] eqn:Er; cbn [try_].
  - split; [reflexivity|exact Hlt].
  - destruct e; auto. exfalso. exact (retAry_not_eof _ _ Er).
Qed.

Lemma page_step_app (pre more : list pilimg) (st : tif_state) :
  (pageIdx st < length pre)%nat ->
  page_step pilimg conversionFcn nplanes (pre ++ more) st
  = page_step pilimg conversionFcn nplanes pre st.
Proof.
  intros Hlt. unfold page_step, seek. now rewrite nth_error_app1.
Qed.

(** Once the fuel exceeds the pages left, more fuel changes nothing. *)
Lemma page_walk_enough (multipage : list pilimg) (fuel : nat) :
  forall (fuel' : nat) (st : tif_state),
    (length multipage - pageIdx st < fuel)%nat ->
    (length multipage - pageIdx st < fuel')%nat ->
    page_walk pilimg conversionFcn nplanes fuel multipage st
    = page_walk pilimg conversionFcn nplanes fuel' multipage st.
Proof.
  induction fuel as [|fuel IH]; intros fuel' st Hf Hf'; [lia|].
  destruct fuel' as [|fuel']; [lia|]. cbn [page_walk].
  pose proof (page_step_cases multipage st) as Hs.
  destruct (page_step pilimg conversionFcn nplanes multipage st) as [st'|st'|e];
    try reflexivity.
  destruct Hs as [Hi Hlt]. apply IH; lia.
Qed.

(** An [EOFError] from the conversion of page [pg] ends the walk as the end
    of the file would. *)
Lemma page_walk_truncate (pre post : list pilimg) (pg : pilimg) (m : string) :
  conversionFcn pg = Raise (EOFError m) ->
  forall (fuel : nat) (st : tif_state),
    (pageIdx st <= length pre)%nat ->
    page_walk pilimg conversionFcn nplanes fuel (pre ++ pg :: post) st
    = page_walk pilimg conversionFcn nplanes fuel pre st.
Proof.
  intros Hpg. induction fuel as [|fuel IH]; intros st Hle; [reflexivity|].
  cbn [page_walk].
  destruct (Nat.eq_dec (pageIdx st) (length pre)) as [Heq|Hne].
  - unfold page_step, seek.
    rewrite nth_error_app2 by lia. rewrite Heq, Nat.sub_diag. cbn [nth_error].
    rewrite (proj2 (nth_error_None pre (length pre))) by lia.
    cbn [try_]. rewrite Hpg. reflexivity.
  - rewrite page_step_app by lia.
    pose proof (page_step_cases pre st) as Hs.
    destruct (page_step pilimg conversionFcn nplanes pre st) as [st'|st'|e];
      try reflexivity.
    destruct Hs as [Hi Hlt]. apply IH. lia.
Qed.

(** Another exception from the conversion of page [pg], reached after a walk
    over the pages before it, leaves the walk as that exception. *)
Lemma page_walk_fails (pre post : list pilimg) (pg : pilimg) (e : exception) :
  conversionFcn pg = Raise e ->
  (forall m, e <> EOFError m) ->
  forall (fuel : nat) (st st' : tif_state),
    (pageIdx st <= length pre)%nat ->
    (length pre - pageIdx st < fuel)%nat ->
    page_walk pilimg conversionFcn nplanes fuel pre st = Ok st' ->
    pageIdx st' = length pre ->
    page_walk pilimg conversionFcn nplanes fuel (pre ++ pg :: post) st = Raise e.
Proof.
  intros Hpg Hne. induction fuel as [|fuel IH]; intros st st' Hle Hf Hrun Hend;
    [lia|].
  cbn [page_walk] in *.
  destruct (Nat.eq_dec (pageIdx st) (length pre)) as [Heq|Hneq].
  - unfold page_step, seek.
    rewrite nth_error_app2 by lia. rewrite Heq, Nat.sub_diag. cbn [nth_error].
    cbn [try_]. rewrite Hpg. destruct e; try reflexivity.
    exfalso. exact (Hne _ eq_refl).
  - rewrite page_step_app by lia.
    pose proof (page_step_cases pre st) as Hs.
    destruct (page_step pilimg conversionFcn nplanes pre st) as [st1|st1|e1].
    + destruct Hs as [Hi Hlt]. apply (IH st1 st'); try assumption; lia.
    + injection Hrun as <-. subst st1. lia.
    + discriminate.
Qed.
End WalkSteps.

(** X10. An EOFError raised while a page is converted is taken for the end
    of the file: the record is read exactly as a file that ends just before
    that page would be, so the page and every later one are left out without
    any error. *)
Theorem multipage_eof_in_conversion
  (pilimg : Type) (Image_open : bytes -> result (list pilimg))
  (conversionFcn : pilimg -> result ndarray) (nplanes : option Z)
  (idx : Z) (buf buf' : bytes) (pre post : list pilimg) (pg : pilimg)
  (m : string) :
  Image_open buf = Ok (pre ++ pg :: post) ->
  conversionFcn pg = Raise (EOFError m) ->
  Image_open buf' = Ok pre ->
  multitifReader pilimg Image_open conversionFcn nplanes (idx, buf)
  = multitifReader pilimg Image_open conversionFcn nplanes (idx, buf').
Proof.
  intros Ho Hpg Ho'. unfold multitifReader. rewrite Ho, Ho'. cbn [bind].
  rewrite (page_walk_truncate pilimg conversionFcn nplanes pre post pg m Hpg)
    by (cbn [pageIdx]; lia).
  rewrite (page_walk_enough pilimg conversionFcn nplanes pre
             (S (length (pre ++ pg :: post))) (S (length pre)))
    by (cbn [pageIdx]; rewrite ?length_app; simpl; lia).
  reflexivity.
Qed.

Lemma multipage_eof_in_conversion_witness :
  multitifReader Byte.byte toy_open toy_page_strict (Some 2)
    (3, [Byte.x00; Byte.x00; Byte.x00; Byte.xff; Byte.x00])
  = multitifReader Byte.byte toy_open toy_page_strict (Some 2) (3, zeros 3).
Proof.
  apply (multipage_eof_in_conversion Byte.byte toy_open toy_page_strict (Some 2) 3
           [Byte.x00; Byte.x00; Byte.x00; Byte.xff; Byte.x00] (zeros 3)
           (zeros 3) [Byte.x00] Byte.xff "unexpected end of data");
    reflexivity.
Defined.

(** X11. Any other exception raised while a page is converted aborts the
    record: when the pages before it convert to arrays of one shape,
    multitifReader raises that exception and returns no frame, not even of
    the groups already closed. *)
Theorem multipage_conversion_error
  (pilimg : Type) (Image_open : bytes -> result (list pilimg))
  (conversionFcn : pilimg -> result ndarray) (nplanes : option Z)
  (idx : Z) (buf : bytes) (pre post : list pilimg) (pg : pilimg)
  (pages : list ndarray) (h w : Z) (e : exception) :
  Image_open buf = Ok (pre ++ pg :: post) ->
  Forall2 (fun p a => conversionFcn p = Ok a) pre pages ->
  Forall (page_ok h w) pages ->
  (forall n, nplanes = Some n -> 0 < n) ->
  conversionFcn pg = Raise e ->
  (forall m, e <> EOFError m) ->
  multitifReader pilimg Image_open conversionFcn nplanes (idx, buf) = Raise e.
Proof.
  intros Ho Hconv Hpages Hn Hpg Hne.
  destruct (page_groups (start_count nplanes) [] (start_count nplanes) pages)
    as [closed pending] eqn:E.
  destruct (page_groups_start nplanes pages closed pending Hn E)
    as (Hcat & Hnonempty & _ & _).
  assert (Hok : Forall (Forall (page_ok h w)) (closed ++ [pending])).
  { apply Forall_concat_inv. rewrite concat_app. simpl.
    now rewrite app_nil_r, Hcat. }
  apply Forall_app in Hok. destruct Hok as [Hclosed _].
  assert (Hvals : mapM retAry closed = Ok (map (frame_of_group h w) closed)).
  { apply mapM_ok. rewrite Forall_forall in *. intros g Hg.
    apply retAry_pages; auto. }
  assert (Hk : nplanes = Some (start_count nplanes) \/ start_count nplanes <= 0).
  { destruct nplanes as [n|]; [left; reflexivity|right; simpl; lia]. }
  destruct (page_walk_breaks pilimg conversionFcn nplanes pre
              (start_count nplanes) pre pages Hconv
              (S (length (pre ++ pg :: post))) 0 []
              (Some (start_count nplanes)) (start_count nplanes) [] closed pending
              (map (frame_of_group h w) closed) eq_refl eq_refl Hk E Hvals)
    as [o' Hrun].
  { rewrite length_app. simpl. lia. }
  unfold multitifReader. rewrite Ho. cbn [bind].
  assert (Hf : (length pre - 0 < S (length (pre ++ pg :: post)))%nat)
    by (rewrite length_app; simpl; lia).
  rewrite (page_walk_fails pilimg conversionFcn nplanes pre post pg e Hpg Hne
             (S (length (pre ++ pg :: post)))
             (mkTif 0 [] (Some (start_count nplanes)) []) _
             (Nat.le_0_l _) Hf Hrun eq_refl).
  reflexivity.
Qed.

Lemma multipage_conversion_error_witness :
  multitifReader Byte.byte toy_open toy_page_strict (Some 2)
    (0, [Byte.x00; Byte.x00; Byte.x00; Byte.xfe; Byte.x00])
  = Raise (IOError "cannot decode page").
Proof.
  apply (multipage_conversion_error Byte.byte toy_open toy_page_strict (Some 2) 0
           [Byte.x00; Byte.x00; Byte.x00; Byte.xfe; Byte.x00]
           (zeros 3) [Byte.x00] Byte.xfe
           (map (fun b => mkArray [1; 1] [[b]]) (zeros 3)) 1 1
           (IOError "cannot decode page") eq_refl).
  - repeat constructor.
  - repeat constructor.
  - intros n E. injection E as <-. lia.
  - reflexivity.
  - discriminate.
Defined.

(** ** Pages of different sizes *)

Lemma dstack_mismatch (a b : ndarray) (rest : list ndarray) (h w h' w' : Z) :
  shape a = [h; w] -> In b rest -> shape b = [h'; w'] -> [h; w] <> [h'; w'] ->
  dstack (a :: rest)
  = Raise (ValueError
      "all the input array dimensions except for the concatenation axis must match exactly").
Proof.
  intros Ha Hin Hb Hne. unfold dstack. cbn [map]. unfold concatenate2.
  destruct (forallb (fun b0 => same_but_axis2 (shape (atleast_3d a)) (shape b0))
              (map atleast_3d rest)) eqn:Hall; [|reflexivity].
  exfalso. rewrite forallb_forall in Hall.
  specialize (Hall (atleast_3d b) (in_map atleast_3d rest b Hin)).
  unfold atleast_3d in Hall. rewrite Ha, Hb in Hall. cbn [shape] in Hall.
  unfold same_but_axis2 in Hall. cbn [firstn] in Hall.
  destruct (list_eq_dec Z.eq_dec [h; w] [h'; w']) as [Heq|_]; [contradiction|].
  rewrite andb_false_r in Hall. discriminate.
Qed.

(** X12. With nplanes unset all the pages of a file go into one frame, so a
    file whose pages are 2-D but not all of one size cannot be read: when a
    later page differs in shape from the first, multitifReader raises
    ValueError for the record. *)
Theorem multipage_unsplit_mixed_sizes
  (pilimg : Type) (Image_open : bytes -> result (list pilimg))
  (conversionFcn : pilimg -> result ndarray) (idx : Z) (buf : bytes)
  (imgs : list pilimg) (a b : ndarray) (rest : list ndarray) (h w h' w' : Z) :
  Image_open buf = Ok imgs ->
  Forall2 (fun pg x => conversionFcn pg = Ok x) imgs (a :: rest) ->
  shape a = [h; w] -> In b rest -> shape b = [h'; w'] -> [h; w] <> [h'; w'] ->
  multitifReader pilimg Image_open conversionFcn None (idx, buf)
  = Raise (ValueError
      "all the input array dimensions except for the concatenation axis must match exactly").
Proof.
  intros Ho Hconv Ha Hin Hb Hne.
  assert (Hneg : -1 <= 0) by lia.
  destruct (page_walk_breaks pilimg conversionFcn None imgs (-1) imgs (a :: rest)
              Hconv (S (length imgs)) 0 [] (Some (-1)) (-1) [] [] (a :: rest) []
              eq_refl eq_refl (or_intror Hneg)
              (page_groups_never (-1) (a :: rest) [] (-1) Hneg) eq_refl
              (Nat.lt_succ_diag_r _)) as [o' Hrun].
  unfold multitifReader. rewrite Ho. cbn [bind start_count]. rewrite Hrun.
  cbn [bind imgArys]. unfold retAry.
  destruct rest as [|c rest]; [destruct Hin|].
  change (1 <? length (a :: c :: rest))%nat with true. cbv iota.
  now rewrite (dstack_mismatch a b (c :: rest) h w h' w' Ha Hin Hb Hne).
Qed.

Lemma multipage_unsplit_mixed_sizes_witness :
  multitifReader Byte.byte toy_open toy_page_strict None
    (0, [Byte.x00; Byte.x01])
  = Raise (ValueError
      "all the input array dimensions except for the concatenation axis must match exactly").
Proof.
  apply (multipage_unsplit_mixed_sizes Byte.byte toy_open toy_page_strict 0
           [Byte.x00; Byte.x01] [Byte.x00; Byte.x01]
           (mkArray [1; 1] [[Byte.x00]]) (mkArray [1; 2] [[Byte.x01]; [Byte.x01]])
           [mkArray [1; 2] [[Byte.x01]; [Byte.x01]]] 1 1 1 2 eq_refl).
  - repeat constructor.
  - reflexivity.
  - now left.
  - reflexivity.
  - discriminate.
Defined.

(** ** A png file that does not decode *)

(** X13. fromPng skips no file: when imread cannot decode one of the files,
    whichever it is, the collection fromPng returned cannot be evaluated; it
    yields no frames, not even those of the files that decode. *)
Theorem png_undecodable_file
  (imread : bytes -> result ndarray) (files : list bytes) :
  Exists (fun b => exists e, imread b = Raise e) files ->
  forall frames : list (Z * ndarray), rdd (fromPng imread files) <> Ok frames.
Proof.
  intros Hex frames E.
  unfold fromPng in E. cbn [rdd reader_read readerRdd] in E.
  destruct (mapValues_keys _ _ _ E) as [_ Hall].
  clear E. revert Hall. generalize 0 as i. revert frames.
  induction Hex as [b l [e Hb]|b l _ IH]; intros frames i Hall;
    cbn [enumerate_from] in Hall; inversion Hall as [|? ? ? ? Hhd Htl]; subst.
  - cbn [snd] in Hhd. unfold readPngFromBuf in Hhd. congruence.
  - exact (IH _ _ Htl).
Qed.

Lemma png_undecodable_file_witness :
  (exists e, (fun b : bytes => match b with
                               | [] => Raise (IOError "not a png")
                               | _ => toy_imread b
                               end) [] = Raise e) /\
  ~ exists frames : list (Z * ndarray),
      rdd (fromPng (fun b => match b with
                             | [] => Raise (IOError "not a png")
                             | _ => toy_imread b
                             end) [zeros 2; []; zeros 1])
      = Ok frames.
Proof.
  split; [eexists; reflexivity|]. intros [frames E]. revert E.
  apply (png_undecodable_file _ [zeros 2; []; zeros 1]).
  apply Exists_cons_tl, Exists_cons_hd. eexists. reflexivity.
Defined.

(** ** fromArrays *)

Lemma dtype_eqb_eq (t1 t2 : dtype) : dtype_eqb t1 t2 = true <-> t1 = t2.
Proof.
  split; [destruct t1, t2; simpl; intros H; try reflexivity; discriminate|].
  intros ->. destruct t2; reflexivity.
Qed.

Lemma shape_eqb_eq (s1 s2 : list Z) : shape_eqb s1 s2 = true <-> s1 = s2.
Proof.
  unfold shape_eqb. destruct (list_eq_dec Z.eq_dec s1 s2); split; intros;
    try reflexivity; try assumption; try discriminate; contradiction.
Qed.

Lemma fits_dec (a b : typed_array) : {fits a b} + {~ fits a b}.
Proof.
  unfold fits.
  destruct (list_eq_dec Z.eq_dec (shape (ta_array b)) (shape (ta_array a)));
    [|right; tauto].
  destruct (dtype_eqb (ta_dtype b) (ta_dtype a)) eqn:E.
  - left. split; [assumption|now apply dtype_eqb_eq].
  - right. intros [_ H]. apply dtype_eqb_eq in H. congruence.
Qed.

Lemma check_arrays_fit (a : typed_array) (l : list typed_array) :
  Forall (fits a) l ->
  check_arrays (Some (shape (ta_array a))) (Some (ta_dtype a)) l
  = Ok (Some (shape (ta_array a)), Some (ta_dtype a)).
Proof.
  induction 1 as [|b l [Hs Ht] _ IH]; [reflexivity|].
  cbn [check_arrays].
  rewrite (proj2 (shape_eqb_eq _ _) Hs), (proj2 (dtype_eqb_eq _ _) Ht).
  exact IH.
Qed.

Lemma check_arrays_misfit (a bad : typed_array) (pre post : list typed_array) :
  Forall (fits a) pre -> ~ fits a bad ->
  check_arrays (Some (shape (ta_array a))) (Some (ta_dtype a)) (pre ++ bad :: post)
  = Raise (ValueError
      (if shape_eqb (shape (ta_array bad)) (shape (ta_array a)) then
         "Arrays must all be of same data type; got both "
         ++ dtype_name (ta_dtype a) ++ " and " ++ dtype_name (ta_dtype bad)
       else
         "Arrays must all be of same shape; got both "
         ++ str_tuple (shape (ta_array a)) ++ " and "
         ++ str_tuple (shape (ta_array bad)))).
Proof.
  intros Hpre Hbad.
  induction Hpre as [|b pre [Hs Ht] _ IH]; cbn [app check_arrays].
  - destruct (shape_eqb (shape (ta_array bad)) (shape (ta_array a))) eqn:Es;
      [|reflexivity].
    cbn [negb]. apply shape_eqb_eq in Es.
    destruct (dtype_eqb (ta_dtype bad) (ta_dtype a)) eqn:Et; [|reflexivity].
    apply dtype_eqb_eq in Et. exfalso. apply Hbad. split; assumption.
  - rewrite (proj2 (shape_eqb_eq _ _) Hs), (proj2 (dtype_eqb_eq _ _) Ht).
    exact IH.
Qed.

Lemma check_arrays_first (a : typed_array) (l : list typed_array) :
  check_arrays None None (a :: l)
  = check_arrays (Some (shape (ta_array a))) (Some (ta_dtype a)) l.
Proof.
  cbn [check_arrays].
  rewrite (proj2 (shape_eqb_eq _ _) eq_refl), (proj2 (dtype_eqb_eq _ _) eq_refl).
  reflexivity.
Qed.

(** X14. fromArrays accepts a sequence exactly when every array has the shape
    and the element type of the first one. It then numbers the arrays 0, 1,
    ... in the order given and reports their count, the common shape as dims
    and the name of the common element type; a single array passed alone is
    treated as the sequence of that one array. *)
Theorem fromArrays_accepts
  (parallelize : list (Z * typed_array) -> Z -> RDD (Z * typed_array))
  (a : typed_array) (rest : list typed_array) :
  ((exists imgs, fromArrays parallelize (ArraySeq (a :: rest)) = Ok imgs) <->
   Forall (fits a) rest) /\
  (Forall (fits a) rest ->
   fromArrays parallelize (ArraySeq (a :: rest))
   = Ok (mkArrayImages
           (parallelize (enumerate_from 0 (a :: rest))
                        (Z.of_nat (length (a :: rest))))
           (Some (shape (ta_array a))) (dtype_name (ta_dtype a))
           (Z.of_nat (length (a :: rest))))) /\
  fromArrays parallelize (OneArray a)
  = Ok (mkArrayImages (parallelize [(0, a)] 1)
          (Some (shape (ta_array a))) (dtype_name (ta_dtype a)) 1).
Proof.
  assert (Hfit : Forall (fits a) rest ->
                 fromArrays parallelize (ArraySeq (a :: rest))
                 = Ok (mkArrayImages
                         (parallelize (enumerate_from 0 (a :: rest))
                                      (Z.of_nat (length (a :: rest))))
                         (Some (shape (ta_array a))) (dtype_name (ta_dtype a))
                         (Z.of_nat (length (a :: rest))))).
  { intros H. unfold fromArrays.
    rewrite check_arrays_first, (check_arrays_fit a rest H). reflexivity. }
  split; [|split; [exact Hfit|]].
  - split; [|intros H; eexists; exact (Hfit H)].
    intros [imgs E].
    destruct (Forall_Exists_dec (fits a) (fits_dec a) rest) as [H|H]; [exact H|].
    exfalso. apply Exists_exists in H.
    assert (Hsplit : exists pre bad post,
               rest = pre ++ bad :: post /\ Forall (fits a) pre /\ ~ fits a bad).
    { clear E Hfit. induction rest as [|b rest IH].
      - destruct H as (x & [] & _).
      - destruct (fits_dec a b) as [Hb|Hb].
        + destruct IH as (pre & bad & post & -> & Hpre & Hbad).
          { destruct H as (x & [->|Hin] & Hx); [contradiction|].
            exists x. split; assumption. }
          exists (b :: pre), bad, post. repeat split; [constructor|]; assumption.
        + exists [], b, rest. repeat split; [constructor|assumption]. }
    destruct Hsplit as (pre & bad & post & -> & Hpre & Hbad).
    unfold fromArrays in E.
    rewrite check_arrays_first, (check_arrays_misfit a bad pre post Hpre Hbad) in E.
    discriminate.
  - unfold fromArrays. rewrite check_arrays_first. reflexivity.
Qed.

Lemma fromArrays_accepts_witness :
  fromArrays (fun l _ => Ok l)
    (ArraySeq [mkTyped (mkArray [1; 1] [[Byte.x00]]) uint8;
               mkTyped (mkArray [1; 1] [[Byte.x01]]) uint8])
  = Ok (mkArrayImages
          (Ok [(0, mkTyped (mkArray [1; 1] [[Byte.x00]]) uint8);
               (0 + 1, mkTyped (mkArray [1; 1] [[Byte.x01]]) uint8)])
          (Some [1; 1]) "uint8" 2).
Proof.
  apply (proj1 (proj2 (fromArrays_accepts (fun l _ => Ok l)
           (mkTyped (mkArray [1; 1] [[Byte.x00]]) uint8)
           [mkTyped (mkArray [1; 1] [[Byte.x01]]) uint8]))).
  repeat constructor.
Defined.

(** X15. fromArrays raises ValueError at the first array, in the order given,
    that does not fit the first one, and names both: a different shape is
    reported with the two shapes, and a different element type, when the
    shape fits, with the two type names. Arrays after it are not looked
    at. *)
Theorem fromArrays_first_misfit
  (parallelize : list (Z * typed_array) -> Z -> RDD (Z * typed_array))
  (a bad : typed_array) (pre post : list typed_array) :
  Forall (fits a) pre ->
  (shape (ta_array bad) <> shape (ta_array a) ->
   fromArrays parallelize (ArraySeq (a :: pre ++ bad :: post))
   = Raise (ValueError
       ("Arrays must all be of same shape; got both "
        ++ str_tuple (shape (ta_array a)) ++ " and "
        ++ str_tuple (shape (ta_array bad))))) /\
  (shape (ta_array bad) = shape (ta_array a) -> ta_dtype bad <> ta_dtype a ->
   fromArrays parallelize (ArraySeq (a :: pre ++ bad :: post))
   = Raise (ValueError
       ("Arrays must all be of same data type; got both "
        ++ dtype_name (ta_dtype a) ++ " and " ++ dtype_name (ta_dtype bad)))).
Proof.
  intros Hpre. split.
  - intros Hs. unfold fromArrays.
    rewrite check_arrays_first, (check_arrays_misfit a bad pre post Hpre)
      by (intros [H _]; contradiction).
    destruct (shape_eqb (shape (ta_array bad)) (shape (ta_array a))) eqn:E;
      [apply shape_eqb_eq in E; contradiction|reflexivity].
  - intros Hs Ht. unfold fromArrays.
    rewrite check_arrays_first, (check_arrays_misfit a bad pre post Hpre)
      by (intros [_ H]; contradiction).
    rewrite (proj2 (shape_eqb_eq _ _) Hs). reflexivity.
Qed.

Lemma fromArrays_first_misfit_witness :
  fromArrays (fun l _ => Ok l)
    (ArraySeq (mkTyped (mkArray [1; 1] [[Byte.x00]]) int16
               :: [mkTyped (mkArray [1; 1] [[Byte.x01]]) int16]
               ++ mkTyped (mkArray [1] [[Byte.x02]]) int16
               :: [mkTyped (mkArray [1; 1] [[Byte.x03]]) float32]))
  = Raise (ValueError
      "Arrays must all be of same shape; got both (1, 1) and (1,)").
Proof.
  apply (proj1 (fromArrays_first_misfit (fun l _ => Ok l)
           (mkTyped (mkArray [1; 1] [[Byte.x00]]) int16)
           (mkTyped (mkArray [1] [[Byte.x02]]) int16)
           [mkTyped (mkArray [1; 1] [[Byte.x01]]) int16]
           [mkTyped (mkArray [1; 1] [[Byte.x03]]) float32]
           ltac:(repeat constructor))).
  discriminate.
Defined.

(** ** Every record that multitifReader returns *)

Lemma mapM_Forall2 {A B : Type} (f : A -> result B) (l : list A) :
  forall ys, mapM f l = Ok ys -> Forall2 (fun x y => f x = Ok y) l ys.
Proof.
  induction l as [|x l IH]; intros ys E; simpl in E.
  - injection E as <-. constructor.
  - destruct (f x) as [y|e] eqn:Ex; simpl in E; [|discriminate].
    destruct (mapM f l) as [ys'|e]; simpl in E; [|discriminate].
    injection E as <-. constructor; [exact Ex|now apply IH].
Qed.

Lemma Forall2_combine_snd {A B K : Type} (P : A -> B -> Prop)
  (l : list A) (ys : list B) :
  Forall2 P l ys ->
  forall keys : list K, length keys = length ys ->
    Forall2 (fun x f => P x (snd f)) l (combine keys ys).
Proof.
  induction 1 as [|x y l ys Hxy _ IH]; intros keys Hk.
  - destruct keys; constructor.
  - destruct keys as [|k keys]; [discriminate|]. simpl.
    constructor; [exact Hxy|]. apply IH. now injection Hk.
Qed.

Section WalkReturns.
Variable pilimg : Type.
Variable conversionFcn : pilimg -> result ndarray.
Variable nplanes : option Z.
Variable multipage : list pilimg.
Variable reset : Z.

(** A walk that comes back has read the pages up to the end of the container
    or to the first page whose conversion raises [EOFError], has closed the
    groups [page_groups] describes, each turned into a value by [retAry], and
    holds the pending group. *)
Lemma page_walk_returns (imgs : list pilimg) :
  forall (fuel i : nat) (cur : list ndarray) (o : option Z) (k : Z)
         (vs : list ndarray) (st' : tif_state),
    skipn i multipage = imgs ->
    o = Some k ->
    nplanes = Some reset \/ k <= 0 ->
    (length imgs < fuel)%nat ->
    page_walk pilimg conversionFcn nplanes fuel multipage (mkTif i cur o vs)
    = Ok st' ->
    exists (pages : list ndarray) (closed : list (list ndarray))
           (pending vals : list ndarray),
      pages_read pilimg conversionFcn imgs pages /\
      page_groups reset cur k pages = (closed, pending) /\
      mapM retAry closed = Ok vals /\
      imgArys st' = pending /\ values st' = vs ++ vals.
Proof.
  induction imgs as [|pg imgs IH];
    intros fuel i cur o k vs st' Hskip Ho Hk Hfuel Hrun.
  - destruct fuel as [|fuel]; [simpl in Hfuel; lia|].
    cbn [page_walk] in Hrun. unfold page_step, seek in Hrun.
    cbn [pageIdx] in Hrun. rewrite (skipn_nil_nth _ _ Hskip) in Hrun.
    cbn [try_] in Hrun. injection Hrun as <-.
    exists [], [], cur, []. repeat split.
    + exists [], []. repeat split; [constructor|now left].
    + cbn [values]. now rewrite app_nil_r.
  - destruct fuel as [|fuel]; [simpl in Hfuel; lia|].
    destruct (skipn_cons_nth _ _ _ _ Hskip) as [Hnth Hskip'].
    cbn [page_walk] in Hrun. unfold page_step, seek in Hrun.
    cbn [pageIdx imgArys npagesLeft values] in Hrun.
    rewrite Hnth in Hrun. cbn [try_] in Hrun.
    destruct (conversionFcn pg) as [a|e] eqn:Hpg; cbn [try_] in Hrun.
    + rewrite Ho in Hrun.
      destruct (k - 1 =? 0) eqn:E.
      * apply Z.eqb_eq in E.
        destruct Hk as [Hreset|Hneg]; [|lia].
        destruct (retAry (cur ++ [a])) as [v|e] eqn:Hv; cbn [try_] in Hrun.
        -- destruct (IH fuel (S i) [] nplanes reset (vs ++ [v]) st'
                       Hskip' Hreset (or_introl Hreset)
                       ltac:(simpl in Hfuel; lia) Hrun)
             as (pages & closed & pending & vals & Hread & Hgr & Hvals & Hp & Hval).
           destruct Hread as (pre & post & -> & Hpre & Hpost).
           exists (a :: pages), ((cur ++ [a]) :: closed), pending, (v :: vals).
           repeat split.
           ++ exists (pg :: pre), post. repeat split;
                [constructor; assumption|exact Hpost].
           ++ cbn [page_groups]. rewrite (proj2 (Z.eqb_eq _ _) E), Hgr.
              reflexivity.
           ++ cbn [mapM]. rewrite Hv, Hvals. reflexivity.
           ++ exact Hp.
           ++ rewrite Hval, <- app_assoc. reflexivity.
        -- destruct e; try discriminate.
           exfalso. exact (retAry_not_eof _ _ Hv).
      * destruct (IH fuel (S i) (cur ++ [a]) (Some (k - 1)) (k - 1) vs st'
                    Hskip' eq_refl) as
            (pages & closed & pending & vals & Hread & Hgr & Hvals & Hp & Hval);
          [destruct Hk as [Hk|Hk]; [now left|right; lia]
          |simpl in Hfuel; lia|exact Hrun|].
        destruct Hread as (pre & post & -> & Hpre & Hpost).
        exists (a :: pages), closed, pending, vals. repeat split; try assumption.
        -- exists (pg :: pre), post. repeat split;
             [constructor; assumption|exact Hpost].
        -- cbn [page_groups]. rewrite E. exact Hgr.
    + destruct e; try discriminate. injection Hrun as <-.
      exists [], [], cur, []. repeat split.
      * exists [], (pg :: imgs). repeat split; [constructor|].
        right. exists pg, imgs, msg. split; [reflexivity|exact Hpg].
      * cbn [values]. now rewrite app_nil_r.
Qed.
End WalkReturns.

(** Whenever multitifReader returns, its frames are the groups of the pages
    it read, each made into an array by [retAry], with keys
    [idx*nvals + t]. *)
Lemma multitifReader_returns
  (pilimg : Type) (Image_open : bytes -> result (list pilimg))
  (conversionFcn : pilimg -> result ndarray) (nplanes : option Z)
  (idx : Z) (buf : bytes) (frames : list (Z * ndarray)) :
  multitifReader pilimg Image_open conversionFcn nplanes (idx, buf) = Ok frames ->
  exists (imgs : list pilimg) (pages : list ndarray),
    Image_open buf = Ok imgs /\
    pages_read pilimg conversionFcn imgs pages /\
    Forall2 (fun g f => retAry g = Ok (snd f)) (frame_groups nplanes pages) frames /\
    map fst frames
    = tif_keys idx (Z.of_nat (length (frame_groups nplanes pages))).
Proof.
  intros E. unfold multitifReader in E.
  destruct (Image_open buf) as [imgs|e]; cbn [bind] in E; [|discriminate].
  destruct (page_walk pilimg conversionFcn nplanes (S (length imgs)) imgs
              (mkTif 0 [] (Some (start_count nplanes)) []))
    as [st|e] eqn:Hrun; cbn [bind] in E; [|discriminate].
  assert (Hk : nplanes = Some (start_count nplanes) \/ start_count nplanes <= 0).
  { destruct nplanes as [n|]; [left; reflexivity|right; simpl; lia]. }
  destruct (page_walk_returns pilimg conversionFcn nplanes imgs
              (start_count nplanes) imgs (S (length imgs)) 0 []
              (Some (start_count nplanes)) (start_count nplanes) [] st
              eq_refl eq_refl Hk (Nat.lt_succ_diag_r _) Hrun)
    as (pages & closed & pending & vals & Hread & Hgr & Hvals & Hp & Hval).
  exists imgs, pages. split; [reflexivity|]. split; [exact Hread|].
  unfold frame_groups. cbv zeta. rewrite Hgr.
  rewrite Hp, Hval in E. cbn [app] in E.
  pose proof (mapM_Forall2 _ _ _ Hvals) as Hall.
  destruct pending as [|p ps].
  - cbn [bind] in E. injection E as <-. rewrite app_nil_r. split.
    + apply (Forall2_combine_snd (fun g y => retAry g = Ok y)); [exact Hall|].
      rewrite length_tif_keys. reflexivity.
    + rewrite map_fst_combine by now rewrite length_tif_keys.
      now rewrite (Forall2_length Hall).
  - destruct (retAry (p :: ps)) as [r|e] eqn:Hr; cbn [bind] in E; [|discriminate].
    injection E as <-.
    assert (Hall' : Forall2 (fun g y => retAry g = Ok y)
                      (closed ++ [p :: ps]) (vals ++ [r])).
    { apply Forall2_app; [exact Hall|]. constructor; [exact Hr|constructor]. }
    split.
    + apply (Forall2_combine_snd (fun g y => retAry g = Ok y)); [exact Hall'|].
      rewrite length_tif_keys. reflexivity.
    + rewrite map_fst_combine by now rewrite length_tif_keys.
      now rewrite (Forall2_length Hall').
Qed.

Lemma retAry_single (a r : ndarray) : retAry [a] = Ok r -> r = a.
Proof. intros E. cbn in E. now injection E. Qed.

(** C5, as the code has it. For every record that multitifReader returns
    frames for: the pages read (up to the end of the file) are cut, in order
    and without dropping any, into non-empty groups; with nplanes = n every
    group but the last holds n pages and the last, the group still pending
    when the page walk ends, holds between 1 and n; with nplanes unset all
    pages form one group. Every group, the pending one included whatever its
    size, becomes exactly one frame under key idx*nvals + t, namely what
    [dstack(imgArys) if len(imgArys) > 1 else imgArys[0]] makes of it: a
    group of one page is that page itself, and a group of several 2-D pages
    of one shape (h, w) is the array of shape (h, w, number of pages) that
    holds the pages one after the other. And a record whose pages all convert
    to 2-D arrays of one shape is always returned in this way. *)
Theorem multipage_flush_pending :
  (forall (pilimg : Type) (Image_open : bytes -> result (list pilimg))
          (conversionFcn : pilimg -> result ndarray) (nplanes : option Z)
          (idx : Z) (buf : bytes) (frames : list (Z * ndarray)),
     (forall n, nplanes = Some n -> 0 < n) ->
     multitifReader pilimg Image_open conversionFcn nplanes (idx, buf) = Ok frames ->
     exists (imgs : list pilimg) (pages : list ndarray)
            (groups : list (list ndarray)),
       Image_open buf = Ok imgs /\
       pages_read pilimg conversionFcn imgs pages /\
       concat groups = pages /\
       Forall (fun g => g <> []) groups /\
       (forall n, nplanes = Some n ->
          Forall (fun g => Z.of_nat (length g) = n) (removelast groups) /\
          Forall (fun g => Z.of_nat (length g) <= n) groups) /\
       (nplanes = None -> groups = match pages with [] => [] | _ => [pages] end) /\
       map fst frames = tif_keys idx (Z.of_nat (length groups)) /\
       Forall2 (fun g f =>
                  retAry g = Ok (snd f) /\
                  match g with
                  | [a] => snd f = a
                  | _ => forall h w, Forall (page_ok h w) g ->
                         snd f = mkArray [h; w; Z.of_nat (length g)]
                                         (concat (map data g))
                  end) groups frames) /\
  (forall (pilimg : Type) (Image_open : bytes -> result (list pilimg))
          (conversionFcn : pilimg -> result ndarray) (nplanes : option Z)
          (idx : Z) (buf : bytes) (imgs : list pilimg) (pages : list ndarray)
          (h w : Z),
     Image_open buf = Ok imgs ->
     Forall2 (fun pg a => conversionFcn pg = Ok a) imgs pages ->
     Forall (page_ok h w) pages ->
     (forall n, nplanes = Some n -> 0 < n) ->
     exists (groups : list (list ndarray)) (frames : list (Z * ndarray)),
       multitifReader pilimg Image_open conversionFcn nplanes (idx, buf) = Ok frames /\
       concat groups = pages /\
       Forall (fun g => g <> []) groups /\
       (forall n, nplanes = Some n ->
          Forall (fun g => Z.of_nat (length g) = n) (removelast groups) /\
          Forall (fun g => Z.of_nat (length g) <= n) groups) /\
       (nplanes = None -> groups = match pages with [] => [] | _ => [pages] end) /\
       map snd frames = map (frame_of_group h w) groups /\
       map fst frames = tif_keys idx (Z.of_nat (length groups)) /\
       Forall (fun g =>
                 match g with
                 | [a] => frame_of_group h w g = a /\ shape a = [h; w]
                 | _ => frame_of_group h w g
                        = mkArray [h; w; Z.of_nat (length g)] (concat (map data g))
                 end) groups).
Proof.
  split.
  - intros pilimg Image_open conversionFcn nplanes idx buf frames Hn E.
    destruct (multitifReader_returns _ _ _ _ _ _ _ E)
      as (imgs & pages & Hopen & Hread & Hall & Hkeys).
    destruct (frame_groups_spec nplanes pages Hn) as (Hcat & Hne & Hsz & Hnone).
    exists imgs, pages, (frame_groups nplanes pages).
    repeat (split; [assumption|]).
    eapply Forall2_impl; [|exact Hall]. intros g f Hr. split; [exact Hr|].
    destruct g as [|a [|b g]].
    + discriminate Hr.
    + now apply retAry_single.
    + intros h w Hg.
      rewrite (retAry_pages h w (a :: b :: g)) in Hr by (auto; discriminate).
      injection Hr as <-. reflexivity.
  - intros pilimg Image_open conversionFcn nplanes idx buf imgs pages h w
           Hopen Hconv Hpages Hn.
    destruct (frame_groups_spec nplanes pages Hn) as (Hcat & Hne & Hsz & Hnone).
    exists (frame_groups nplanes pages). eexists.
    split; [eapply multitifReader_frames; eassumption|].
    repeat (split; [assumption|]).
    split; [|split].
    + apply map_snd_combine. now rewrite length_tif_keys, length_map.
    + apply map_fst_combine. now rewrite length_tif_keys, length_map.
    + assert (Hall : Forall (Forall (page_ok h w)) (frame_groups nplanes pages)).
      { apply Forall_concat_inv. now rewrite Hcat. }
      eapply Forall_impl; [|exact Hall]. intros g Hg.
      destruct g as [|a [|b g]]; try reflexivity.
      split; [reflexivity|]. apply Forall_inv in Hg. apply Hg.
Qed.

Lemma multipage_flush_pending_witness :
  (exists (imgs : list Byte.byte) (pages : list ndarray)
          (groups : list (list ndarray)),
     toy_open (zeros 3) = Ok imgs /\
     pages_read Byte.byte toy_page_strict imgs pages /\
     concat groups = pages /\
     Forall (fun g => g <> []) groups /\
     map fst [(2, mkArray [1; 1; 2] [[Byte.x00]; [Byte.x00]]);
              (3, mkArray [1; 1] [[Byte.x00]])]
     = tif_keys 1 (Z.of_nat (length groups))) /\
  (exists (groups : list (list ndarray)) (frames : list (Z * ndarray)),
     multitifReader Byte.byte toy_open toy_page (Some 2) (1, zeros 3) = Ok frames /\
     concat groups = map (fun b => mkArray [1; 1] [[b]]) (zeros 3) /\
     Forall (fun g => g <> []) groups /\
     map snd frames = map (frame_of_group 1 1) groups /\
     map fst frames = tif_keys 1 (Z.of_nat (length groups))).
Proof.
  split.
  - destruct (proj1 multipage_flush_pending Byte.byte toy_open toy_page_strict
                (Some 2) 1 (zeros 3)
                [(2, mkArray [1; 1; 2] [[Byte.x00]; [Byte.x00]]);
                 (3, mkArray [1; 1] [[Byte.x00]])])
      as (imgs & pages & groups & H1 & H2 & H3 & H4 & _ & _ & H7 & _).
    + intros n E. injection E as <-. lia.
    + reflexivity.
    + exists imgs, pages, groups. repeat split; assumption.
  - destruct (proj2 multipage_flush_pending Byte.byte toy_open toy_page (Some 2) 1
                (zeros 3) (zeros 3) (map (fun b => mkArray [1; 1] [[b]]) (zeros 3))
                1 1 eq_refl)
      as (groups & frames & H1 & H2 & H3 & _ & _ & H6 & H7 & _).
    + repeat constructor.
    + repeat constructor.
    + intros n E. injection E as <-. lia.
    + exists groups, frames. repeat split; assumption.
Defined.

(** C5 as stated fails. A pending group of two pages of different sizes is
    not emitted at the end of the file: the record raises and gives no frame
    at all; and two pages of three axes (1, 1, 3) are joined along their
    third axis into a frame of shape (1, 1, 6), with no new trailing axis. *)
Lemma multipage_pending_group_raises :
  (~ exists frames : list (Z * ndarray),
       multitifReader Byte.byte toy_open toy_page_strict (Some 3)
         (0, [Byte.x00; Byte.x01]) = Ok frames) /\
  (exists fr : ndarray,
     multitifReader Byte.byte toy_open toy_page_rgb (Some 2) (0, zeros 2)
     = Ok [(0, fr)] /\
     shape fr = [1; 1; 6]).
Proof.
  split.
  - intros [frames E]. vm_compute in E. discriminate E.
  - eexists. split; [vm_compute; reflexivity|reflexivity].
Qed.

(** ** Runs that return, whatever the pages look like *)

Lemma conversions_agree (pilimg : Type) (conversionFcn : pilimg -> result ndarray)
  (imgs : list pilimg) (l1 l2 : list ndarray) :
  Forall2 (fun pg a => conversionFcn pg = Ok a) imgs l1 ->
  Forall2 (fun pg a => conversionFcn pg = Ok a) imgs l2 ->
  l1 = l2.
Proof.
  intros H1. revert l2.
  induction H1 as [|pg a imgs l1 Ha _ IH]; intros l2 H2.
  - now inversion H2.
  - inversion H2 as [|pg' b imgs' l2' Hb H2' E1 E2]; subst.
    rewrite Ha in Hb. injection Hb as <-. f_equal. now apply IH.
Qed.

(** When every page of the container converts, the pages read are all of
    them. *)
Lemma pages_read_all (pilimg : Type) (conversionFcn : pilimg -> result ndarray)
  (imgs : list pilimg) (pages pages' : list ndarray) :
  Forall2 (fun pg a => conversionFcn pg = Ok a) imgs pages ->
  pages_read pilimg conversionFcn imgs pages' ->
  pages' = pages.
Proof.
  intros Hall (pre & post & -> & Hpre & Hpost).
  apply Forall2_app_inv_l in Hall.
  destruct Hall as (l1 & l2 & Hl1 & Hl2 & ->).
  rewrite (conversions_agree _ _ _ _ _ Hpre Hl1).
  destruct Hpost as [-> | (pg & post' & m & -> & Hpg)].
  - inversion Hl2. now rewrite app_nil_r.
  - inversion Hl2; subst. congruence.
Qed.

Lemma multitifReader_returns_all
  (pilimg : Type) (Image_open : bytes -> result (list pilimg))
  (conversionFcn : pilimg -> result ndarray) (nplanes : option Z)
  (idx : Z) (buf : bytes) (imgs : list pilimg) (pages : list ndarray)
  (frames : list (Z * ndarray)) :
  Image_open buf = Ok imgs ->
  Forall2 (fun pg a => conversionFcn pg = Ok a) imgs pages ->
  multitifReader pilimg Image_open conversionFcn nplanes (idx, buf) = Ok frames ->
  Forall2 (fun g f => retAry g = Ok (snd f)) (frame_groups nplanes pages) frames /\
  map fst frames = tif_keys idx (Z.of_nat (length (frame_groups nplanes pages))).
Proof.
  intros Ho Hc E.
  destruct (multitifReader_returns _ _ _ _ _ _ _ E)
    as (imgs' & pages' & Ho' & Hread & Hall & Hk).
  rewrite Ho in Ho'. injection Ho' as <-.
  rewrite (pages_read_all _ _ _ _ _ Hc Hread) in Hall, Hk. now split.
Qed.

Lemma tif_keys_run (pilimg : Type) (Image_open : bytes -> result (list pilimg))
  (conversionFcn : pilimg -> result ndarray) (n : Z) (p : nat)
  (files : list bytes) :
  0 < n ->
  Forall (fun buf => exists (imgs : list pilimg) (pages : list ndarray),
            Image_open buf = Ok imgs /\
            Forall2 (fun pg a => conversionFcn pg = Ok a) imgs pages /\
            length pages = p) files ->
  let nv := stack_npoints (Z.of_nat p) n in
  forall (i : Z) (frames : list (Z * ndarray)),
    flatMap (multitifReader pilimg Image_open conversionFcn (Some n))
            (enumerate_from i files) = Ok frames ->
    map fst frames
    = map (fun j => i * nv + Z.of_nat j) (seq 0 (length files * Z.to_nat nv)).
Proof.
  intros Hn Hfiles nv. unfold flatMap.
  induction files as [|buf files IH]; intros i frames E.
  - cbn in E. injection E as <-. reflexivity.
  - apply Forall_cons_iff in Hfiles. destruct Hfiles as [Hbuf Hfiles].
    destruct Hbuf as (imgs & pages & Ho & Hc & Hlen).
    cbn [enumerate_from mapM] in E.
    destruct (multitifReader pilimg Image_open conversionFcn (Some n) (i, buf))
      as [fr|e] eqn:Hfr; cbn [bind] in E; [|discriminate].
    destruct (mapM (multitifReader pilimg Image_open conversionFcn (Some n))
                (enumerate_from (i + 1) files)) as [ls|e] eqn:Hls;
      cbn [bind] in E; [|discriminate].
    injection E as <-.
    destruct (multitifReader_returns_all _ _ _ _ _ _ _ _ _ Ho Hc Hfr) as [_ Hk].
    rewrite length_frame_groups in Hk by exact Hn.
    rewrite Hlen in Hk. fold nv in Hk.
    specialize (IH Hfiles (i + 1) (concat ls)).
    rewrite Hls in IH. specialize (IH eq_refl).
    cbn [concat length Nat.mul]. rewrite map_app, Hk, IH. unfold tif_keys.
    rewrite seq_app, map_app. cbn [Nat.add]. f_equal.
    rewrite (seq_offset (Z.to_nat nv)), map_map.
    assert (0 <= nv) by (apply stack_npoints_nonneg; lia).
    apply map_ext. intros j. lia.
Qed.

(** X7. Take a run of fromTif with nplanes = n in which every file opens,
    every page of it converts, and every file holds the same number p of
    pages. Whenever the collection evaluates, its keys are
    0, 1, ... (files * nvals) - 1 in order, nvals being p/n rounded up, so
    they never repeat; and when moreover the pages of each file are 2-D
    arrays of one shape, the collection does evaluate. *)
Theorem multipage_equal_pages_dense
  (pilimg : Type) (array pil_to_array : pilimg -> result ndarray)
  (Image : PILImage pilimg) (n : Z) (p : nat) (files : list bytes)
  (imgs : Images) :
  Forall (fun buf => exists (pgs : list pilimg) (pages : list ndarray),
            PIL_open Image buf = Ok pgs /\
            Forall2 (fun pg a =>
                       (if PILLOW_VERSION Image then array else pil_to_array) pg
                       = Ok a) pgs pages /\
            length pages = p) files ->
  fromTif pilimg array pil_to_array (Some Image) files (Some n) = Ok imgs ->
  (forall frames : list (Z * ndarray),
     rdd imgs = Ok frames ->
     map fst frames
     = map Z.of_nat
           (seq 0 (length files * Z.to_nat (stack_npoints (Z.of_nat p) n))) /\
     NoDup (map fst frames)) /\
  (Forall (fun buf => exists pages,
             reads_pages pilimg (PIL_open Image)
               (if PILLOW_VERSION Image then array else pil_to_array) buf pages)
          files ->
   exists frames : list (Z * ndarray), rdd imgs = Ok frames).
Proof.
  intros Hfiles E.
  destruct (fromTif_ok _ _ _ _ _ _ _ E) as (Hn & Hrdd & _).
  specialize (Hn n eq_refl). rewrite Hrdd. split.
  - intros frames Ef.
    pose proof (tif_keys_run pilimg (PIL_open Image) _ n p files Hn Hfiles 0
                  frames Ef) as Hk.
    assert (Hk' : map fst frames
                  = map Z.of_nat
                      (seq 0 (length files
                              * Z.to_nat (stack_npoints (Z.of_nat p) n)))).
    { rewrite Hk. apply map_ext. intros j. lia. }
    split; [exact Hk'|]. rewrite Hk'.
    apply NoDup_map_injective; [|apply seq_NoDup].
    intros x y Hxy. lia.
  - intros Hshape.
    assert (Hboth : Forall (fun buf => exists pages,
                       reads_pages pilimg (PIL_open Image)
                         (if PILLOW_VERSION Image then array else pil_to_array)
                         buf pages /\
                       length pages = p) files).
    { rewrite Forall_forall in *. intros buf Hin.
      destruct (Hfiles buf Hin) as (pgs & pages & Ho & Hc & Hlen).
      destruct (Hshape buf Hin) as (pages' & (pgs' & h & w & Ho' & Hc' & Hp)).
      rewrite Ho in Ho'. injection Ho' as <-.
      rewrite (conversions_agree _ _ _ _ _ Hc' Hc) in Hp.
      exists pages. split; [|exact Hlen].
      exists pgs, h, w. repeat split; assumption. }
    destruct (tif_keys_from pilimg (PIL_open Image) _ n p files Hn Hboth 0)
      as (frames & Hf & _).
    exists frames. exact Hf.
Qed.

Lemma multipage_equal_pages_dense_witness :
  (forall frames : list (Z * ndarray),
     flatMap (multitifReader Byte.byte toy_open toy_page (Some 2))
             (enumerate_from 0 [zeros 3; zeros 3]) = Ok frames ->
     map fst frames = [0; 1; 2; 3]) /\
  (exists frames : list (Z * ndarray),
     flatMap (multitifReader Byte.byte toy_open toy_page (Some 2))
             (enumerate_from 0 [zeros 3; zeros 3]) = Ok frames).
Proof.
  destruct (multipage_equal_pages_dense Byte.byte toy_page toy_page toy_PIL 2 3
              [zeros 3; zeros 3] _
              ltac:(repeat constructor;
                    exists (zeros 3), (map (fun b => mkArray [1; 1] [[b]]) (zeros 3));
                    repeat split; repeat constructor)
              eq_refl)
    as [Hkeys Hruns].
  split.
  - intros frames Ef. exact (proj1 (Hkeys frames Ef)).
  - apply Hruns. repeat constructor; eexists; apply toy_reads_pages.
Defined.

(** ** fromTif with nplanes unset, for every run that returns *)

Lemma multitifReader_unsplit_returns
  (pilimg : Type) (Image_open : bytes -> result (list pilimg))
  (conversionFcn : pilimg -> result ndarray) (idx : Z) (buf : bytes)
  (imgs : list pilimg) (pages : list ndarray) (frames : list (Z * ndarray)) :
  Image_open buf = Ok imgs ->
  Forall2 (fun pg a => conversionFcn pg = Ok a) imgs pages ->
  pages <> [] ->
  multitifReader pilimg Image_open conversionFcn None (idx, buf) = Ok frames ->
  exists f : ndarray, frames = [(idx, f)] /\ retAry pages = Ok f.
Proof.
  intros Ho Hc Hne E.
  destruct (multitifReader_returns_all _ _ _ _ _ _ _ _ _ Ho Hc E) as [Hall Hk].
  assert (Hn : forall n, @None Z = Some n -> 0 < n) by discriminate.
  destruct (frame_groups_spec None pages Hn) as (_ & _ & _ & Hg).
  rewrite (Hg eq_refl) in Hall, Hk.
  destruct pages as [|a pages]; [congruence|].
  inversion Hall as [|g f gs fs Hr Hnil]; subst.
  inversion Hnil; subst.
  destruct f as [k v]. cbn [snd] in Hr.
  unfold tif_keys in Hk. cbn [length] in Hk.
  change (Z.to_nat (Z.of_nat 1)) with 1%nat in Hk.
  cbn [seq map fst] in Hk. change (Z.of_nat 1) with 1 in Hk.
  change (Z.of_nat 0) with 0 in Hk.
  injection Hk as Hk. exists v. split; [|exact Hr].
  f_equal. f_equal. lia.
Qed.

(** X8. Take a run of fromTif with nplanes unset. When every file opens, all
    its pages convert and it has at least one page, then whenever the
    collection evaluates, each file gives exactly one frame, keyed by the
    file's position, equal to
    [dstack(imgArys) if len(imgArys) > 1 else imgArys[0]] of all its pages
    (the page itself for a one-page file, the array of shape
    (h, w, number of pages) for several 2-D pages of one shape (h, w)), and
    the reported frame count is the number of frames. When in addition the
    pages of each file are 2-D arrays of one shape (h, w), the collection
    does evaluate, to these frames. *)
Theorem multipage_unsplit_collection
  (pilimg : Type) (array pil_to_array : pilimg -> result ndarray)
  (Image : PILImage pilimg) (files : list bytes) (imgs : Images) :
  fromTif pilimg array pil_to_array (Some Image) files None = Ok imgs ->
  (Forall (fun buf => exists (pgs : list pilimg) (pages : list ndarray),
             PIL_open Image buf = Ok pgs /\
             Forall2 (fun pg a =>
                        (if PILLOW_VERSION Image then array else pil_to_array) pg
                        = Ok a) pgs pages /\
             pages <> []) files ->
   forall frames : list (Z * ndarray),
     rdd imgs = Ok frames ->
     map fst frames = map Z.of_nat (seq 0 (length files)) /\
     nimages imgs = Some (Z.of_nat (length frames)) /\
     Forall2 (fun buf f =>
                exists (pgs : list pilimg) (pages : list ndarray),
                  PIL_open Image buf = Ok pgs /\
                  Forall2 (fun pg a =>
                             (if PILLOW_VERSION Image then array else pil_to_array) pg
                             = Ok a) pgs pages /\
                  retAry pages = Ok (snd f) /\
                  match pages with
                  | [a] => snd f = a
                  | _ => forall h w, Forall (page_ok h w) pages ->
                         snd f = mkArray [h; w; Z.of_nat (length pages)]
                                         (concat (map data pages))
                  end) files frames) /\
  (Forall (fun buf => exists (pgs : list pilimg) (pages : list ndarray) (h w : Z),
             PIL_open Image buf = Ok pgs /\
             Forall2 (fun pg a =>
                        (if PILLOW_VERSION Image then array else pil_to_array) pg
                        = Ok a) pgs pages /\
             Forall (page_ok h w) pages /\ pages <> []) files ->
   exists frames : list (Z * ndarray),
     rdd imgs = Ok frames /\
     map fst frames = map Z.of_nat (seq 0 (length files)) /\
     nimages imgs = Some (Z.of_nat (length frames)) /\
     Forall2 (fun buf f =>
                exists (pgs : list pilimg) (pages : list ndarray) (h w : Z),
                  PIL_open Image buf = Ok pgs /\
                  Forall2 (fun pg a =>
                             (if PILLOW_VERSION Image then array else pil_to_array) pg
                             = Ok a) pgs pages /\
                  Forall (page_ok h w) pages /\
                  snd f = frame_of_group h w pages) files frames).
Proof.
  intros E.
  destruct (fromTif_ok _ _ _ _ _ _ _ E) as (_ & Hrdd & Hnim).
  rewrite Hrdd, Hnim. clear E Hrdd Hnim.
  set (conversionFcn := if PILLOW_VERSION Image then array else pil_to_array).
  split.
  - intros Hfiles.
    assert (H : forall (i : Z) (frames : list (Z * ndarray)),
              flatMap (multitifReader pilimg (PIL_open Image) conversionFcn None)
                      (enumerate_from i files) = Ok frames ->
              map fst frames = map (fun j => i + Z.of_nat j) (seq 0 (length files)) /\
              length frames = length files /\
              Forall2 (fun buf f =>
                         exists (pgs : list pilimg) (pages : list ndarray),
                           PIL_open Image buf = Ok pgs /\
                           Forall2 (fun pg a => conversionFcn pg = Ok a) pgs pages /\
                           retAry pages = Ok (snd f) /\
                           match pages with
                           | [a] => snd f = a
                           | _ => forall h w, Forall (page_ok h w) pages ->
                                  snd f = mkArray [h; w; Z.of_nat (length pages)]
                                                  (concat (map data pages))
                           end) files frames).
    { unfold flatMap. induction files as [|buf files IH]; intros i frames Ef.
      - cbn in Ef. injection Ef as <-. repeat split. constructor.
      - apply Forall_cons_iff in Hfiles. destruct Hfiles as [Hbuf Hfiles].
        destruct Hbuf as (pgs & pages & Ho & Hc & Hne).
        cbn [enumerate_from mapM] in Ef.
        destruct (multitifReader pilimg (PIL_open Image) conversionFcn None (i, buf))
          as [fr|e] eqn:Hfr; cbn [bind] in Ef; [|discriminate].
        destruct (mapM (multitifReader pilimg (PIL_open Image) conversionFcn None)
                    (enumerate_from (i + 1) files)) as [ls|e] eqn:Hls;
          cbn [bind] in Ef; [|discriminate].
        injection Ef as <-.
        destruct (multitifReader_unsplit_returns _ _ _ _ _ _ _ _ Ho Hc Hne Hfr)
          as (f & -> & Hr).
        specialize (IH Hfiles (i + 1) (concat ls)).
        rewrite Hls in IH. destruct (IH eq_refl) as (Hk & Hl & Hall).
        cbn [concat app map fst length seq]. split; [|split].
        + rewrite Hk, <- seq_shift, map_map. f_equal; [lia|].
          apply map_ext. intros j. lia.
        + now rewrite Hl.
        + constructor; [|exact Hall].
          exists pgs, pages. cbn [snd].
          split; [exact Ho|]. split; [exact Hc|]. split; [exact Hr|].
          destruct pages as [|a [|b pages]].
          * congruence.
          * now apply retAry_single.
          * intros h w Hp.
            rewrite (retAry_pages h w (a :: b :: pages)) in Hr
              by (auto; discriminate).
            injection Hr as <-. reflexivity. }
    intros frames Ef. destruct (H 0 frames Ef) as (Hk & Hl & Hall).
    split; [|split].
    + rewrite Hk. apply map_ext. intros j. lia.
    + now rewrite Hl.
    + exact Hall.
  - intros Hfiles.
    assert (H : forall i : Z,
              exists frames : list (Z * ndarray),
                flatMap (multitifReader pilimg (PIL_open Image) conversionFcn None)
                        (enumerate_from i files) = Ok frames /\
                map fst frames = map (fun j => i + Z.of_nat j) (seq 0 (length files)) /\
                length frames = length files /\
                Forall2 (fun buf f =>
                           exists (pgs : list pilimg) (pages : list ndarray) (h w : Z),
                             PIL_open Image buf = Ok pgs /\
                             Forall2 (fun pg a => conversionFcn pg = Ok a) pgs pages /\
                             Forall (page_ok h w) pages /\
                             snd f = frame_of_group h w pages) files frames).
    { unfold flatMap. induction files as [|buf files IH]; intros i.
      - exists []. repeat split. constructor.
      - apply Forall_cons_iff in Hfiles. destruct Hfiles as [Hbuf Hfiles].
        destruct Hbuf as (pgs & pages & h & w & Ho & Hc & Hp & Hne).
        destruct (IH Hfiles (i + 1)) as (frames & Ef & Hk & Hl & Hall).
        cbn [enumerate_from mapM].
        rewrite (multitifReader_unsplit pilimg (PIL_open Image) conversionFcn i buf
                   pgs pages h w Ho Hc Hp Hne).
        cbn [bind].
        destruct (mapM (multitifReader pilimg (PIL_open Image) conversionFcn None)
                    (enumerate_from (i + 1) files)) as [ls|e]; cbn [bind] in *;
          [|discriminate].
        injection Ef as <-. eexists. split; [reflexivity|].
        cbn [concat app map fst length seq]. split; [|split].
        + rewrite Hk, <- seq_shift, map_map. f_equal; [lia|].
          apply map_ext. intros j. lia.
        + now rewrite Hl.
        + constructor; [|exact Hall].
          exists pgs, pages, h, w. repeat split; assumption. }
    destruct (H 0) as (frames & Ef & Hk & Hl & Hall).
    exists frames. split; [exact Ef|]. split; [|split].
    + rewrite Hk. apply map_ext. intros j. lia.
    + now rewrite Hl.
    + exact Hall.
Qed.

Lemma multipage_unsplit_collection_witness :
  (forall frames : list (Z * ndarray),
     flatMap (multitifReader Byte.byte toy_open toy_page None)
             (enumerate_from 0 [zeros 1; zeros 3]) = Ok frames ->
     map fst frames = [0; 1]) /\
  (exists frames : list (Z * ndarray),
     flatMap (multitifReader Byte.byte toy_open toy_page None)
             (enumerate_from 0 [zeros 1; zeros 3]) = Ok frames /\
     map fst frames = [0; 1]).
Proof.
  destruct (multipage_unsplit_collection Byte.byte toy_page toy_page toy_PIL
              [zeros 1; zeros 3] _ eq_refl) as [Hall Hruns].
  split.
  - intros frames Ef.
    refine (proj1 (Hall _ frames Ef)).
    repeat constructor.
    + exists (zeros 1), (map (fun b => mkArray [1; 1] [[b]]) (zeros 1)).
      split; [reflexivity|]. split; [repeat constructor|discriminate].
    + exists (zeros 3), (map (fun b => mkArray [1; 1] [[b]]) (zeros 3)).
      split; [reflexivity|]. split; [repeat constructor|discriminate].
  - destruct Hruns as (frames & Hf & Hk & _).
    + repeat constructor.
      * exists (zeros 1), (map (fun b => mkArray [1; 1] [[b]]) (zeros 1)), 1, 1.
        split; [reflexivity|]. split; [repeat constructor|].
        split; [repeat constructor|discriminate].
      * exists (zeros 3), (map (fun b => mkArray [1; 1] [[b]]) (zeros 3)), 1, 1.
        split; [reflexivity|]. split; [repeat constructor|].
        split; [repeat constructor|discriminate].
    + exists frames. split; [exact Hf|exact Hk].
Defined.

(** ** Pages in, pages out, for every record that returns *)

Lemma atleast_3d_data (a : ndarray) : data (atleast_3d a) = data a.
Proof.
  unfold atleast_3d. destruct (shape a) as [|d0 [|d1 [|d2 s]]]; reflexivity.
Qed.

(** A page of at most three axes, seen with three, is one block. *)
Lemma atleast_3d_block (a : ndarray) :
  small_page a ->
  skipn 3 (shape (atleast_3d a)) = [] /\ block (atleast_3d a) 0 = data a.
Proof.
  intros [[_ Hlen] Hax]. unfold block. rewrite atleast_3d_data.
  cbn [Nat.mul skipn]. unfold atleast_3d.
  destruct (shape a) as [|d0 [|d1 [|d2 [|d3 s]]]] eqn:Hs;
    cbn [length] in Hax; try lia; try rewrite Hs; cbn [shape skipn firstn];
    (split; [reflexivity|]); apply firstn_all2;
    unfold prod in *; cbn [fold_right] in *; lia.
Qed.

Lemma dstack_data (g : list ndarray) (r : ndarray) :
  Forall small_page g -> dstack g = Ok r -> data r = concat (map data g).
Proof.
  intros Hg E. unfold dstack, concatenate2 in E.
  destruct g as [|a g]; [discriminate|]. cbn [map] in E.
  destruct (forallb _ (map atleast_3d g)); [|discriminate].
  injection E as <-.
  match goal with |- ?lhs = _ => change lhs with
    (flat_map (fun o => flat_map (fun b => block b o) (map atleast_3d (a :: g)))
              (seq 0 (Z.to_nat (prod (skipn 3 (shape (atleast_3d a))))))) end.
  rewrite (proj1 (atleast_3d_block a (Forall_inv Hg))).
  change (Z.to_nat (prod [])) with 1%nat. cbn [seq flat_map].
  rewrite app_nil_r.
  induction Hg as [|b l Hb _ IH]; [reflexivity|].
  cbn [map flat_map concat].
  now rewrite (proj2 (atleast_3d_block b Hb)), IH.
Qed.

Lemma retAry_data (g : list ndarray) (r : ndarray) :
  Forall small_page g -> retAry g = Ok r -> data r = concat (map data g).
Proof.
  intros Hg E. destruct g as [|a [|b g]].
  - discriminate E.
  - apply retAry_single in E. subst r. cbn [map concat]. now rewrite app_nil_r.
  - unfold retAry in E.
    change (1 <? length (a :: b :: g))%nat with true in E. cbv iota in E.
    now apply dstack_data.
Qed.

Lemma frames_data (groups : list (list ndarray)) (frames : list (Z * ndarray)) :
  Forall2 (fun g f => retAry g = Ok (snd f)) groups frames ->
  Forall (Forall small_page) groups ->
  concat (map (fun f => data (snd f)) frames) = concat (map data (concat groups)).
Proof.
  induction 1 as [|g f gs fs Hr _ IH]; intros Hs; [reflexivity|].
  apply Forall_cons_iff in Hs. destruct Hs as [Hg Hs].
  cbn [map concat].
  now rewrite map_app, concat_app, (retAry_data g _ Hg Hr), IH by exact Hs.
Qed.

(** X9. multitifReader loses, repeats and reorders none of the pages it
    reads. For every record it returns frames for, with the pages it read
    (those up to the end of the container, or up to the first page whose
    conversion raises EOFError, which ends the walk) being well-formed
    arrays of at most three axes: the items of the frames, laid end to end
    in frame order, are the items of these pages in page order, whatever the
    nplanes. And a record whose pages all convert to 2-D arrays of one shape
    is returned, with all its pages in its frames. *)
Theorem multipage_pages_roundtrip :
  (forall (pilimg : Type) (Image_open : bytes -> result (list pilimg))
          (conversionFcn : pilimg -> result ndarray) (nplanes : option Z)
          (idx : Z) (buf : bytes) (frames : list (Z * ndarray)),
     (forall n, nplanes = Some n -> 0 < n) ->
     multitifReader pilimg Image_open conversionFcn nplanes (idx, buf) = Ok frames ->
     exists (imgs : list pilimg) (pages : list ndarray),
       Image_open buf = Ok imgs /\
       pages_read pilimg conversionFcn imgs pages /\
       (Forall small_page pages ->
        concat (map (fun f => data (snd f)) frames) = concat (map data pages))) /\
  (forall (pilimg : Type) (Image_open : bytes -> result (list pilimg))
          (conversionFcn : pilimg -> result ndarray) (nplanes : option Z)
          (idx : Z) (buf : bytes) (imgs : list pilimg) (pages : list ndarray)
          (h w : Z),
     Image_open buf = Ok imgs ->
     Forall2 (fun pg a => conversionFcn pg = Ok a) imgs pages ->
     Forall (page_ok h w) pages ->
     (forall n, nplanes = Some n -> 0 < n) ->
     exists frames : list (Z * ndarray),
       multitifReader pilimg Image_open conversionFcn nplanes (idx, buf) = Ok frames /\
       concat (map (fun f => data (snd f)) frames) = concat (map data pages)).
Proof.
  split.
  - intros pilimg Image_open conversionFcn nplanes idx buf frames Hn E.
    destruct (multitifReader_returns _ _ _ _ _ _ _ E)
      as (imgs & pages & Ho & Hread & Hall & _).
    exists imgs, pages. split; [exact Ho|]. split; [exact Hread|].
    intros Hsmall.
    destruct (frame_groups_spec nplanes pages Hn) as (Hcat & _).
    rewrite <- Hcat at 1. apply frames_data; [exact Hall|].
    apply Forall_concat_inv. now rewrite Hcat.
  - intros pilimg Image_open conversionFcn nplanes idx buf imgs pages h w
           Ho Hc Hp Hn.
    destruct (frame_groups_spec nplanes pages Hn) as (Hcat & _).
    eexists. split; [eapply multitifReader_frames; eassumption|].
    rewrite <- (map_map snd data), map_snd_combine
      by now rewrite length_tif_keys, length_map.
    rewrite map_map.
    rewrite (map_ext _ (fun g => concat (map data g)) (data_frame_of_group h w)).
    rewrite <- Hcat at 2. clear.
    induction (frame_groups nplanes pages) as [|g gs IH]; [reflexivity|].
    cbn [map concat]. now rewrite map_app, concat_app, IH.
Qed.

Lemma multipage_pages_roundtrip_witness :
  (exists (imgs : list Byte.byte) (pages : list ndarray),
     toy_open [Byte.x00; Byte.x02; Byte.xff; Byte.x03] = Ok imgs /\
     pages_read Byte.byte toy_page_strict imgs pages /\
     (Forall small_page pages ->
      concat (map (fun f => data (snd f))
                  [(1, mkArray [1; 1; 2] [[Byte.x00]; [Byte.x02]])])
      = concat (map data pages))) /\
  (exists frames : list (Z * ndarray),
     multitifReader Byte.byte toy_open toy_page (Some 2) (1, zeros 5) = Ok frames /\
     concat (map (fun f => data (snd f)) frames)
     = concat (map data (map (fun b => mkArray [1; 1] [[b]]) (zeros 5)))).
Proof.
  split.
  - apply (proj1 multipage_pages_roundtrip Byte.byte toy_open toy_page_strict
             (Some 2) 1 [Byte.x00; Byte.x02; Byte.xff; Byte.x03]
             [(1, mkArray [1; 1; 2] [[Byte.x00]; [Byte.x02]])]).
    + intros n E. injection E as <-. lia.
    + reflexivity.
  - apply (proj2 multipage_pages_roundtrip Byte.byte toy_open toy_page (Some 2) 1
             (zeros 5) (zeros 5) (map (fun b => mkArray [1; 1] [[b]]) (zeros 5))
             1 1 eq_refl).
    + repeat constructor.
    + repeat constructor.
    + intros n E. injection E as <-. lia.
Defined.
